(** * DFSWebCrawler: a shallow embedding of [src/crawlers/web_crawler.py]

    The crawler object becomes a record that every method takes and returns;
    the SQLite tables, the image directory, the two bounded queues, the set
    of asyncio tasks and the log are fields of that record.  Everything the
    crawler obtains from outside (urllib, BeautifulSoup, aiohttp, PIL,
    hashlib) is gathered in one record of oracles, [World], so that every
    method is an executable function of the crawler state and of the
    answers of the outside world.

    Reading conventions:
    - integers are [Z]; timestamps are microseconds; the floats of the
      adaptive delay are the rationals their literals denote;
    - a coroutine body is one function of the state: what happens at its
      [await] points is what the oracles answer, and the clock stands still
      while the body runs;
    - a method that can get stuck in a blocking [Queue.put] returns an
      [option]; [None] is the task that never returns;
    - urllib raises [ValueError] on a malformed reference: [urljoin]
      answers with an [option], a call that this exception can leave ends
      as [Returned] or [Raised], and the [except] clause that catches it is
      where the caller matches on [Raised] or on [None];
    - the table of per-domain locks ([get_domain_lock]) is left out: with
      one body run at a time the lock is free when it is asked for. *)

From Stdlib Require Import Ascii String QArith Qminmax Qround Lqa.
From stdpp Require Import gmap strings list fin_maps.

Set Warnings "-register-all,-clear-no-such-hyp".
Close Scope Q_scope.
Open Scope string_scope.
Open Scope list_scope.
Open Scope Z_scope.

(** ** Python strings *)

Module Py.

(** Characters are code points below 256.  [str.isspace] holds there for
    TAB..CR, FS..US, SPACE, NEL and NBSP. *)
Definition isspace (c : ascii) : bool :=
  let n := N_of_ascii c in
  (((9 <=? n) && (n <=? 13)) || ((28 <=? n) && (n <=? 32))
   || (n =? 133) || (n =? 160))%N.

(** [str.split()] without separator: the maximal runs of non-space
    characters, in order; [cur] holds the run being read, reversed. *)
Fixpoint split_from (cur : list ascii) (s : list ascii) : list string :=
  match s with
  | [] => match cur with [] => [] | _ => [string_of_list_ascii (rev cur)] end
  | c :: r =>
      if isspace c
      then match cur with
           | [] => split_from [] r
           | _ => string_of_list_ascii (rev cur) :: split_from [] r
           end
      else split_from (c :: cur) r
  end.

Definition split (s : string) : list string :=
  split_from [] (list_ascii_of_string s).

Fixpoint lstrip (s : list ascii) : list ascii :=
  match s with
  | c :: r => if isspace c then lstrip r else s
  | [] => []
  end.

(** [str.strip()] *)
Definition strip (s : string) : string :=
  string_of_list_ascii
    (rev (lstrip (rev (lstrip (list_ascii_of_string s))))).

(** [sep.join(parts)] *)
Fixpoint join (sep : string) (parts : list string) : string :=
  match parts with
  | [] => ""
  | [p] => p
  | p :: rest => p ++ sep ++ join sep rest
  end.

Definition lower_char (c : ascii) : ascii :=
  let n := N_of_ascii c in
  if (((65 <=? n) && (n <=? 90))
      || ((192 <=? n) && (n <=? 222) && negb (n =? 215)))%N
  then ascii_of_N (n + 32) else c.

(** [str.lower()] *)
Fixpoint lower (s : string) : string :=
  match s with
  | EmptyString => EmptyString
  | String c r => String (lower_char c) (lower r)
  end.

(** [needle in hay] on strings *)
Fixpoint contains (needle hay : string) : bool :=
  String.prefix needle hay
  || match hay with
     | EmptyString => false
     | String _ r => contains needle r
     end.

Definition rev_string (s : string) : string :=
  string_of_list_ascii (rev (list_ascii_of_string s)).

(** [s.endswith(suffix)] *)
Definition endswith (s suffix : string) : bool :=
  String.prefix (rev_string suffix) (rev_string s).

(** Truth value of a string: non-empty. *)
Definition truthy (s : string) : bool :=
  match s with EmptyString => false | _ => true end.

(** [any(f(x) for x in l)] *)
Definition any {A} (f : A -> bool) (l : list A) : bool := existsb f l.

End Py.

(** ** The parsed document (BeautifulSoup tree) *)

Inductive Node : Type :=
| Text (s : string)
| Elem (tag : string) (attrs : list (string * string)) (children : list Node).

(** A soup is the list of its top-level nodes. *)
Definition Soup := list Node.

Module Bs4.

Definition tag_in (t : string) (names : list string) : bool :=
  bool_decide (t ∈ names).

(** [find_all(names)] below one node, in document order, the node itself
    included. *)
Fixpoint find_all_node (names : list string) (n : Node) : list Node :=
  match n with
  | Text _ => []
  | Elem t _ cs =>
      (if tag_in t names then [n] else [])
      ++ flat_map (find_all_node names) cs
  end.

Definition find_all (names : list string) (soup : Soup) : list Node :=
  flat_map (find_all_node names) soup.

(** [element.decompose()] for every element found under one of [names]:
    those subtrees disappear from the tree. *)
Fixpoint decompose_node (names : list string) (n : Node) : list Node :=
  match n with
  | Text _ => [n]
  | Elem t a cs =>
      if tag_in t names then []
      else [Elem t a (flat_map (decompose_node names) cs)]
  end.

Definition decompose_all (names : list string) (soup : Soup) : Soup :=
  flat_map (decompose_node names) soup.

(** [tag.get_text()]: the text nodes below, concatenated. *)
Fixpoint get_text (n : Node) : string :=
  match n with
  | Text s => s
  | Elem _ _ cs => fold_right (fun c acc => (get_text c ++ acc)%string) "" cs
  end.

(** [tag.get(name)]; a text node has no attributes. *)
Fixpoint assoc (name : string) (l : list (string * string)) : option string :=
  match l with
  | [] => None
  | (k, v) :: r => if bool_decide (k = name) then Some v else assoc name r
  end.

Definition get (name : string) (n : Node) : option string :=
  match n with
  | Text _ => None
  | Elem _ attrs _ => assoc name attrs
  end.

End Bs4.

(** ** The outside world *)

(** What [session.get(url)] and the reading of the body come to.  An
    [aiohttp.ClientError] or a timeout while the body is read happens
    before the crawler has changed anything, so it is the same outcome as
    one raised by the request. *)
Inductive FetchOutcome : Type :=
| ClientError
| OtherError
| Response (status : Z) (content_type : option string) (content : string).

(** A decoded picture, as [PIL.Image] gives it. *)
Definition Image := string.

(** What fetching and decoding a picture comes to: an exception of any
    kind, or a response with its status and, when the status is 200, the
    decoded picture ([None]: PIL raised). *)
Inductive ImageOutcome : Type :=
| ImageError
| ImageResponse (status : Z) (decoded : option Image).

(** The two fields of [urlparse(url)] the crawler reads. *)
Record ParseResult := { scheme : string; netloc : string }.

(** The answers of the libraries and of the network.  [urljoin base url]
    is [None] where urllib raises [ValueError] (a reference such as
    [http://[::1], whose bracket is never closed); [urlparse_raises] tells
    the strings on which [urlparse] raises it, and [urlparse] gives the
    fields where it returns.  [parse_html] stands for
    [BeautifulSoup(content, 'html.parser')], [md5_hexdigest] for
    [hashlib.md5(url.encode()).hexdigest()] and [jpeg_q85] for what is read
    back from a picture saved as JPEG of quality 85. *)

Record World := {
  urljoin : string -> string -> option string;
  urlparse : string -> ParseResult;
  urlparse_raises : string -> bool;
  parse_html : string -> Soup;
  http_get : string -> FetchOutcome;
  image_get : string -> ImageOutcome;
  md5_hexdigest : string -> string;
  jpeg_q85 : Image -> Image
}.

(** ** The crawler object *)

(** [queue.Queue(maxsize)]: unbounded when [maxsize <= 0]. *)
Module PyQueue.

Record t (A : Type) := Make { maxsize : Z; items : list A }.
Arguments Make {A} _ _.
Arguments maxsize {A} _.
Arguments items {A} _.

Definition qsize {A} (q : t A) : Z := Z.of_nat (length (items q)).

Definition full {A} (q : t A) : bool :=
  (0 <? maxsize q) && (maxsize q <=? qsize q).

(** [put] waits for a free slot when the queue is full; nobody inside the
    crawler ever takes a record out, so the wait is reported as [None]:
    the caller does not get past the call. *)
Definition append {A} (q : t A) (x : A) : t A :=
  Make (maxsize q) (items q ++ [x]).

Definition put {A} (q : t A) (x : A) : option (t A) :=
  if full q then None else Some (append q x).

End PyQueue.

Record TextRecord := { tr_url : string; tr_text : string; tr_depth : Z }.
Record ImageRecord := { ir_url : string; ir_image : Image; ir_depth : Z }.

(** One entry of [domain_stats]. *)
Record Stats := { errors : Z; success : Z }.

Record Metrics := {
  pages_crawled : Z;
  bytes_downloaded : Z;
  successful_requests : Z;
  failed_requests : Z;
  cached_hits : Z
}.

(** An asyncio task wrapping [crawl_url_dfs(url, depth)]. *)
Record Task := { task_url : string; task_depth : Z }.

Inductive Level : Type := INFO | WARNING | ERROR.

(** The calls of [logging] the crawl makes, with what they interpolate. *)
Inductive LogEntry : Type :=
| LogCrawling (url : string) (depth : Z)
| LogAddedText (url : string) (queue_size : Z)
| LogAddedCachedText (url : string)
| LogAddedImage (url : string) (queue_size : Z)
| LogImageError (url : string)
| LogNetworkError (url : string)
| LogCrawlError (url : string)
| LogProgress (active_tasks : Z) (pages : Z)
| LogCrawlerError.

Definition level (e : LogEntry) : Level :=
  match e with
  | LogCrawling _ _ | LogAddedText _ _ | LogAddedCachedText _
  | LogAddedImage _ _ | LogProgress _ _ => INFO
  | LogImageError _ | LogNetworkError _ | LogCrawlError _
  | LogCrawlerError => ERROR
  end.

(** Timestamps are microseconds, the resolution of [datetime]. *)
Definition hours_24 : Z := 24 * 3600 * 1000000.

Record Crawler := mkCrawler {
  max_depth : Z;
  max_concurrent : Z;
  is_running : bool;
  visited : gset string;
  (* table visited_urls(url, timestamp) *)
  visited_urls : gmap string Z;
  (* table pages(url, content, last_crawled) *)
  pages : gmap string (string * Z);
  (* cache_dir/images/<hash>.jpg *)
  image_files : gmap string Image;
  domain_stats : gmap string Stats;
  metrics : Metrics;
  text_queue : PyQueue.t TextRecord;
  image_queue : PyQueue.t ImageRecord;
  (* self.tasks, oldest first *)
  tasks : list Task;
  (* the arguments of asyncio.sleep, oldest first *)
  sleeps : list Q;
  (* the log, oldest first *)
  log : list LogEntry;
  (* what datetime.now() reads *)
  clock : Z
}.

Definition with_visited (v : gset string) (c : Crawler) : Crawler :=
  mkCrawler (max_depth c) (max_concurrent c) (is_running c) v
    (visited_urls c) (pages c) (image_files c) (domain_stats c) (metrics c)
    (text_queue c) (image_queue c) (tasks c) (sleeps c) (log c) (clock c).

Definition with_visited_urls (t : gmap string Z) (c : Crawler) : Crawler :=
  mkCrawler (max_depth c) (max_concurrent c) (is_running c) (visited c)
    t (pages c) (image_files c) (domain_stats c) (metrics c)
    (text_queue c) (image_queue c) (tasks c) (sleeps c) (log c) (clock c).

Definition with_pages (t : gmap string (string * Z)) (c : Crawler) : Crawler :=
  mkCrawler (max_depth c) (max_concurrent c) (is_running c) (visited c)
    (visited_urls c) t (image_files c) (domain_stats c) (metrics c)
    (text_queue c) (image_queue c) (tasks c) (sleeps c) (log c) (clock c).

Definition with_image_files (t : gmap string Image) (c : Crawler) : Crawler :=
  mkCrawler (max_depth c) (max_concurrent c) (is_running c) (visited c)
    (visited_urls c) (pages c) t (domain_stats c) (metrics c)
    (text_queue c) (image_queue c) (tasks c) (sleeps c) (log c) (clock c).

Definition with_domain_stats (t : gmap string Stats) (c : Crawler) : Crawler :=
  mkCrawler (max_depth c) (max_concurrent c) (is_running c) (visited c)
    (visited_urls c) (pages c) (image_files c) t (metrics c)
    (text_queue c) (image_queue c) (tasks c) (sleeps c) (log c) (clock c).

Definition with_metrics (m : Metrics) (c : Crawler) : Crawler :=
  mkCrawler (max_depth c) (max_concurrent c) (is_running c) (visited c)
    (visited_urls c) (pages c) (image_files c) (domain_stats c) m
    (text_queue c) (image_queue c) (tasks c) (sleeps c) (log c) (clock c).

Definition with_text_queue (q : PyQueue.t TextRecord) (c : Crawler) : Crawler :=
  mkCrawler (max_depth c) (max_concurrent c) (is_running c) (visited c)
    (visited_urls c) (pages c) (image_files c) (domain_stats c) (metrics c)
    q (image_queue c) (tasks c) (sleeps c) (log c) (clock c).

Definition with_image_queue (q : PyQueue.t ImageRecord) (c : Crawler) : Crawler :=
  mkCrawler (max_depth c) (max_concurrent c) (is_running c) (visited c)
    (visited_urls c) (pages c) (image_files c) (domain_stats c) (metrics c)
    (text_queue c) q (tasks c) (sleeps c) (log c) (clock c).

Definition with_tasks (t : list Task) (c : Crawler) : Crawler :=
  mkCrawler (max_depth c) (max_concurrent c) (is_running c) (visited c)
    (visited_urls c) (pages c) (image_files c) (domain_stats c) (metrics c)
    (text_queue c) (image_queue c) t (sleeps c) (log c) (clock c).

Definition with_sleeps (l : list Q) (c : Crawler) : Crawler :=
  mkCrawler (max_depth c) (max_concurrent c) (is_running c) (visited c)
    (visited_urls c) (pages c) (image_files c) (domain_stats c) (metrics c)
    (text_queue c) (image_queue c) (tasks c) l (log c) (clock c).

Definition with_log (l : list LogEntry) (c : Crawler) : Crawler :=
  mkCrawler (max_depth c) (max_concurrent c) (is_running c) (visited c)
    (visited_urls c) (pages c) (image_files c) (domain_stats c) (metrics c)
    (text_queue c) (image_queue c) (tasks c) (sleeps c) l (clock c).

(** [logging.info], [logging.error] *)
Definition logging (e : LogEntry) (c : Crawler) : Crawler :=
  with_log (log c ++ [e]) c.

(** [asyncio.sleep(delay)] *)
Definition sleep (delay : Q) (c : Crawler) : Crawler :=
  with_sleeps (sleeps c ++ [delay]) c.

(** [len(self.tasks)] *)
Definition len_tasks (c : Crawler) : Z := Z.of_nat (length (tasks c)).

(** [asyncio.create_task(self.crawl_url_dfs(url, depth))] followed by
    [self.tasks.add(task)] *)
Definition create_task (url : string) (depth : Z) (c : Crawler) : Crawler :=
  with_tasks (tasks c ++ [{| task_url := url; task_depth := depth |}]) c.

Definition bump_cached_hits (c : Crawler) : Crawler :=
  let m := metrics c in
  with_metrics {| pages_crawled := pages_crawled m;
                  bytes_downloaded := bytes_downloaded m;
                  successful_requests := successful_requests m;
                  failed_requests := failed_requests m;
                  cached_hits := cached_hits m + 1 |} c.

(** How a call that the [ValueError] of urllib can leave comes to its end,
    with the crawler as it is then. *)
Inductive Ended : Type :=
| Returned (c : Crawler)
| Raised (c : Crawler).

Definition after (r : Ended) : Crawler :=
  match r with Returned c | Raised c => c end.

(** ** The methods of [DFSWebCrawler] *)

(** [is_valid_image_url] *)
Definition is_valid_image_url (url : string) : bool :=
  Py.any (fun ext => Py.endswith (Py.lower url) ext)
    [".jpg"; ".jpeg"; ".png"; ".gif"; ".webp"].

(** [is_valid_video_url] *)
Definition is_valid_video_url (url : string) : bool :=
  Py.any (fun platform => Py.contains platform (Py.lower url))
    ["youtube.com"; "vimeo.com"; "dailymotion.com"].

Definition skip_domains : list string :=
  ["facebook.com"; "twitter.com"; "instagram.com"; "ads."; "analytics.";
   "tracker."].

(** [extract_text]: the unwanted subtrees are removed from the soup the
    caller holds, so the function returns the soup it leaves behind
    together with the text. *)
Definition extract_text (soup : Soup) : string * Soup :=
  let soup' :=
    Bs4.decompose_all ["script"; "style"; "nav"; "header"; "footer"] soup in
  let paragraphs := Bs4.find_all ["p"] soup' in
  (Py.join " " (map (fun p => Py.strip (Bs4.get_text p)) paragraphs), soup').

(** [len(text.split())] *)
Definition word_count (text : string) : Z :=
  Z.of_nat (length (Py.split text)).

(** [save_visited_url] *)
Definition save_visited_url (url : string) (c : Crawler) : Crawler :=
  with_visited_urls (<[url := clock c]> (visited_urls c)) c.

(** [get_cached_page] *)
Definition get_cached_page (url : string) (c : Crawler)
  : option string * Crawler :=
  match pages c !! url with
  | Some (content, last_crawled) =>
      if clock c - last_crawled <? hours_24
      then (Some content, bump_cached_hits c)
      else (None, c)
  | None => (None, c)
  end.

(** [cache_page] *)
Definition cache_page (url content : string) (c : Crawler) : Crawler :=
  with_pages (<[url := (content, clock c)]> (pages c)) c.

(** [self.domain_stats.get(domain, {'errors': 0, 'success': 0})] *)
Definition stats_of (domain : string) (c : Crawler) : Stats :=
  default {| errors := 0; success := 0 |} (domain_stats c !! domain).

(** [get_adaptive_delay]; the floats are read as the rationals they
    denote. *)
Definition get_adaptive_delay (domain : string) (c : Crawler) : Q :=
  let stats := stats_of domain c in
  let base_delay := 1%Q in
  let error_factor := (1 + inject_Z (errors stats) * (5 # 10))%Q in
  let success_factor :=
    Qmax (5 # 10) (1 - inject_Z (success stats) * (1 # 10))%Q in
  (base_delay * error_factor * success_factor)%Q.

(** [update_domain_stats] *)
Definition update_domain_stats (domain : string) (ok : bool) (c : Crawler)
  : Crawler :=
  let st := stats_of domain c in
  let m := metrics c in
  if ok
  then with_metrics {| pages_crawled := pages_crawled m;
                       bytes_downloaded := bytes_downloaded m;
                       successful_requests := successful_requests m + 1;
                       failed_requests := failed_requests m;
                       cached_hits := cached_hits m |}
         (with_domain_stats
            (<[domain := {| errors := errors st; success := success st + 1 |}]>
               (domain_stats c)) c)
  else with_metrics {| pages_crawled := pages_crawled m;
                       bytes_downloaded := bytes_downloaded m;
                       successful_requests := successful_requests m;
                       failed_requests := failed_requests m + 1;
                       cached_hits := cached_hits m |}
         (with_domain_stats
            (<[domain := {| errors := errors st + 1; success := success st |}]>
               (domain_stats c)) c).

(** The text branch shared by [crawl_url_dfs] (lines 217-220) and
    [process_cached_content] (lines 413-416); they differ by the message
    logged.  [None]: the task is stuck in [Queue.put]. *)
Definition emit_text (entry : Z -> LogEntry) (url text : string) (depth : Z)
    (c : Crawler) : option Crawler :=
  if Py.truthy text && (50 <? word_count text)
  then
    if negb (PyQueue.full (text_queue c))
    then
      q ← PyQueue.put (text_queue c)
            {| tr_url := url; tr_text := text; tr_depth := depth |};
      Some (logging (entry (PyQueue.qsize q)) (with_text_queue q c))
    else Some c
  else Some c.

Section Methods.

Context (w : World).

(** [is_valid_url]: the bare [except] turns a [ValueError] of [urlparse]
    into [False]. *)
Definition is_valid_url (url : string) : bool :=
  if urlparse_raises w url then false
  else
    let result := urlparse w url in
    Py.truthy (scheme result) && Py.truthy (netloc result).

(** [should_crawl_url]; [extract_links] calls it on a URL that
    [is_valid_url] has accepted, which [urlparse] therefore parses. *)
Definition should_crawl_url (url : string) : bool :=
  let parsed := urlparse w url in
  negb (Py.any (fun domain => Py.contains domain (netloc parsed)) skip_domains).

(** [extract_links]; [seen] is [self.visited].  [None]: [urljoin] raised
    [ValueError] on the [href] of an anchor; nothing catches it inside
    [extract_links], so the call gives no list at all. *)
Fixpoint links_of (anchors : list Node) (base_url : string)
    (seen : gset string) : option (list string) :=
  match anchors with
  | [] => Some []
  | link :: rest =>
      match Bs4.get "href" link with
      | Some href =>
          if Py.truthy href
          then
            full_url ← urljoin w base_url href;
            if is_valid_url full_url && should_crawl_url full_url
               && negb (bool_decide (full_url ∈ seen))
            then links ← links_of rest base_url seen; Some (full_url :: links)
            else links_of rest base_url seen
          else links_of rest base_url seen
      | None => links_of rest base_url seen
      end
  end.

Definition extract_links (soup : Soup) (base_url : string) (c : Crawler)
  : option (list string) :=
  links_of (Bs4.find_all ["a"] soup) base_url (visited c).

(** [process_image]: the picture, if any, and the crawler afterwards. *)
Definition process_image (img_url : string) (c : Crawler)
  : option Image * Crawler :=
  let img_hash := md5_hexdigest w img_url in
  match image_files c !! img_hash with
  | Some stored => (Some stored, bump_cached_hits c)
  | None =>
      match image_get w img_url with
      | ImageResponse status decoded =>
          if status =? 200
          then match decoded with
               | Some image =>
                   (Some image,
                    with_image_files
                      (<[img_hash := jpeg_q85 w image]> (image_files c)) c)
               | None => (None, logging (LogImageError img_url) c)
               end
          else (None, c)
      | ImageError => (None, logging (LogImageError img_url) c)
      end
  end.

(** [process_images], over the list [soup.find_all('img')].  The
    [urljoin] of line 249 is not inside a [try] of [process_images]: its
    [ValueError] leaves the loop, [Raised]. *)
Fixpoint process_images_from (imgs : list Node) (base_url : string)
    (depth : Z) (c : Crawler) : option Ended :=
  match imgs with
  | [] => Some (Returned c)
  | img :: rest =>
      if negb (is_running c) then Some (Returned c)
      else
        match Bs4.get "src" img with
        | Some src =>
            if Py.truthy src && is_valid_image_url src
            then
              match urljoin w base_url src with
              | Some img_url =>
                  let '(processed_image, c1) := process_image img_url c in
                  c2 ← match processed_image with
                       | Some image =>
                           if negb (PyQueue.full (image_queue c1))
                           then
                             q ← PyQueue.put (image_queue c1)
                                   {| ir_url := img_url; ir_image := image;
                                      ir_depth := depth |};
                             Some (logging
                                     (LogAddedImage img_url (PyQueue.qsize q))
                                     (with_image_queue q c1))
                           else Some c1
                       | None => Some c1
                       end;
                  process_images_from rest base_url depth c2
              | None => Some (Raised c)
              end
            else process_images_from rest base_url depth c
        | None => process_images_from rest base_url depth c
        end
  end.

Definition process_images (soup : Soup) (base_url : string) (depth : Z)
    (c : Crawler) : option Ended :=
  process_images_from (Bs4.find_all ["img"] soup) base_url depth c.

(** [process_cached_content] *)
Definition process_cached_content (url content : string) (depth : Z)
    (c : Crawler) : option Crawler :=
  let soup := parse_html w content in
  let '(text, _) := extract_text soup in
  emit_text (fun _ => LogAddedCachedText url) url text depth c.

(** Lines 228-232: one task per link while there is room. *)
Fixpoint schedule_links (links : list string) (depth : Z) (c : Crawler)
  : Crawler :=
  match links with
  | [] => c
  | link :: rest =>
      schedule_links rest depth
        (if (len_tasks c <? max_concurrent c) && is_running c
         then create_task link (depth + 1) c
         else c)
  end.

(** Lines 206-232: what follows a 200 response carrying HTML.  A
    [ValueError] out of [process_images] or [extract_links] is caught at
    line 238, which logs it; the task ends there. *)
Definition process_fetched (url domain content : string) (depth : Z)
    (c : Crawler) : option Crawler :=
  let m := metrics c in
  let c := with_metrics
             {| pages_crawled := pages_crawled m + 1;
                bytes_downloaded :=
                  bytes_downloaded m + Z.of_nat (String.length content);
                successful_requests := successful_requests m;
                failed_requests := failed_requests m;
                cached_hits := cached_hits m |} c in
  let c := update_domain_stats domain true c in
  let c := cache_page url content c in
  let soup := parse_html w content in
  let '(text, soup) := extract_text soup in
  c ← emit_text (LogAddedText url) url text depth c;
  r ← process_images soup url depth c;
  match r with
  | Returned c =>
      if depth <? max_depth c
      then
        match extract_links soup url c with
        | Some links => Some (schedule_links links depth c)
        | None => Some (logging (LogCrawlError url) c)
        end
      else Some c
  | Raised c => Some (logging (LogCrawlError url) c)
  end.

(** Lines 180-236: the fetch of a page that the cache did not give. *)
Definition fetch_page (url domain : string) (depth : Z) (c : Crawler)
  : option Crawler :=
  let c := sleep (get_adaptive_delay domain c) c in
  match http_get w url with
  | Response status content_type content =>
      if negb (status =? 200)
      then Some (update_domain_stats domain false c)
      else
        if negb (Py.contains "text/html" (Py.lower (default "" content_type)))
        then Some c
        else process_fetched url domain content depth c
  | ClientError =>
      Some (logging (LogNetworkError url) (update_domain_stats domain false c))
  | OtherError => Some (logging (LogCrawlError url) c)
  end.

(** [crawl_url_dfs].  The body is run in one piece: the waits for the
    domain lock, for the sleep and for the network are points where other
    tasks could run, and the oracle answers stand for what comes back.
    [None]: the task never returns, stuck in [Queue.put].  Line 162 reads
    the domain of the task's URL before the [try]: the URL of a task is
    taken to be one [urlparse] returns on, as every URL that
    [extract_links] gives is. *)
Definition crawl_url_dfs (url : string) (depth : Z) (c : Crawler)
  : option Crawler :=
  if negb (is_running c) || (max_depth c <? depth)
     || bool_decide (url ∈ visited c)
  then Some c
  else
    let domain := netloc (urlparse w url) in
    if bool_decide (url ∈ visited c) then Some c
    else
      let c := with_visited ({[url]} ∪ visited c) c in
      let c := save_visited_url url c in
      let c := logging (LogCrawling url depth) c in
      let '(cached_content, c) := get_cached_page url c in
      match cached_content with
      | Some content =>
          if Py.truthy content
          then process_cached_content url content depth c
          else fetch_page url domain depth c
      | None => fetch_page url domain depth c
      end.

(** ** [run_crawler] *)

(** Lines 274-278 *)
Fixpoint create_initial_tasks (seed_urls : list string) (c : Crawler)
  : Crawler :=
  match seed_urls with
  | [] => c
  | url :: rest =>
      create_initial_tasks rest
        (if len_tasks c <? max_concurrent c then create_task url 0 c else c)
  end.

(** Lines 299-305: the links of every visited URL whose page is cached and
    fresh; [unvisited_urls] is the list built so far.  [None]:
    [extract_links] raised on one of the pages, with the crawler as it was
    then. *)
Fixpoint collect_unvisited (urls : list string) (unvisited_urls : list string)
    (c : Crawler) : option (list string) * Crawler :=
  match urls with
  | [] => (Some unvisited_urls, c)
  | visited_url :: rest =>
      let '(cached_content, c) := get_cached_page visited_url c in
      match cached_content with
      | Some content =>
          if Py.truthy content
          then
            let soup := parse_html w content in
            match extract_links soup visited_url c with
            | Some links => collect_unvisited rest (unvisited_urls ++ links) c
            | None => (None, c)
            end
          else collect_unvisited rest unvisited_urls c
      | None => collect_unvisited rest unvisited_urls c
      end
  end.

(** Lines 308-314.  [crawl_url_dfs(url)] leaves [depth] to its default,
    0. *)
Fixpoint create_new_tasks (unvisited_urls : list string) (c : Crawler)
  : Crawler :=
  match unvisited_urls with
  | [] => c
  | url :: rest =>
      if max_concurrent c <=? len_tasks c then c
      else
        create_new_tasks rest
          (if negb (bool_decide (url ∈ visited c)) && is_running c
           then create_task url 0 c
           else c)
  end.

(** Lines 296-314, for one finished task.  The visited set is walked in
    the order of [elements]; Python leaves the order of a set open.  A
    [ValueError] of [extract_links] leaves these lines before any task is
    created. *)
Definition rescan_ended (c : Crawler) : Ended :=
  if (len_tasks c <? max_concurrent c) && is_running c
  then
    let '(unvisited_urls, c) := collect_unvisited (elements (visited c)) [] c in
    match unvisited_urls with
    | Some unvisited_urls => Returned (create_new_tasks unvisited_urls c)
    | None => Raised c
    end
  else Returned c.

(** The crawler after lines 296-314, whichever way they end. *)
Definition rescan (c : Crawler) : Crawler := after (rescan_ended c).

(** Lines 317-324 *)
Definition log_progress (c : Crawler) : Crawler :=
  match tasks c with
  | [] => c
  | _ => logging (LogProgress (len_tasks c) (pages_crawled (metrics c))) c
  end.

(** The [while] loop of [run_crawler], under the schedule in which the
    oldest task runs to its end before the next one starts (the only
    schedule there is while at most one task is in flight).  Each round is
    one return of [asyncio.wait] with that task done: its done-callback has
    taken it out of [self.tasks], then the loop rescans and logs.  Rounds
    in which [asyncio.wait] times out with nothing done change nothing but
    the log and are left out.  A [ValueError] out of the rescan is caught
    at line 326, outside the loop: it is logged and [run_crawler] returns.
    [None]: a task is stuck, or [fuel] rounds were not enough. *)
Fixpoint run_loop (fuel : nat) (c : Crawler) : option Crawler :=
  match tasks c with
  | [] => Some c
  | t :: _ =>
      if negb (is_running c) then Some c
      else
        match fuel with
        | O => None
        | S fuel =>
            c ← crawl_url_dfs (task_url t) (task_depth t) c;
            let c := with_tasks (tail (tasks c)) c in
            match rescan_ended c with
            | Returned c =>
                let c := log_progress c in
                run_loop fuel c
            | Raised c => Some (logging LogCrawlerError c)
            end
        end
  end.

Definition run_crawler (fuel : nat) (seed_urls : list string) (c : Crawler)
  : option Crawler :=
  run_loop fuel (create_initial_tasks seed_urls c).

End Methods.

(** ** What a task may change *)

(** The outcomes that count as an error of the origin in
    [update_domain_stats]: a transport error and a status other than 200. *)
Definition feeds_error_stats (o : FetchOutcome) : bool :=
  match o with
  | ClientError => true
  | Response status _ _ => negb (status =? 200)
  | OtherError => false
  end.

(** The lookup of line 175 gives something to process: a row that is
    fresh and whose content is not empty. *)
Definition cache_hit (url : string) (c : Crawler) : bool :=
  match pages c !! url with
  | Some (content, last_crawled) =>
      (clock c - last_crawled <? hours_24) && Py.truthy content
  | None => false
  end.

(** The task for [url] at [depth] gets as far as the request: the crawler
    runs, the depth is within the limit, the URL is new and the cache has
    nothing fresh for it. *)
Definition reaches_fetch (url : string) (depth : Z) (c : Crawler) : bool :=
  is_running c && (depth <=? max_depth c)
  && negb (bool_decide (url ∈ visited c)) && negb (cache_hit url c).

(** [process_images] touches the image files, the hit counter, the image
    queue (records of the task's depth are appended) and the log. *)
Record images_step (depth : Z) (c c' : Crawler) : Prop := {
  is_max_depth : max_depth c' = max_depth c;
  is_max_concurrent : max_concurrent c' = max_concurrent c;
  is_is_running : is_running c' = is_running c;
  is_visited : visited c' = visited c;
  is_visited_urls : visited_urls c' = visited_urls c;
  is_pages : pages c' = pages c;
  is_domain_stats : domain_stats c' = domain_stats c;
  is_text_queue : text_queue c' = text_queue c;
  is_tasks : tasks c' = tasks c;
  is_sleeps : sleeps c' = sleeps c;
  is_clock : clock c' = clock c;
  is_pages_crawled : pages_crawled (metrics c') = pages_crawled (metrics c);
  is_failed_requests :
    failed_requests (metrics c') = failed_requests (metrics c);
  is_maxsize :
    PyQueue.maxsize (image_queue c') = PyQueue.maxsize (image_queue c);
  is_items :
    ∃ new, PyQueue.items (image_queue c') = PyQueue.items (image_queue c) ++ new
           ∧ Forall (λ r, ir_depth r = depth) new;
  is_log :
    ∃ new, log c' = log c ++ new ∧ Forall (λ e, level e ≠ WARNING) new
}.

(** What lines 206-232 leave as they were, and what they add. *)
Record page_step (url : string) (depth : Z) (c c' : Crawler) : Prop := {
  ps_max_depth : max_depth c' = max_depth c;
  ps_max_concurrent : max_concurrent c' = max_concurrent c;
  ps_is_running : is_running c' = is_running c;
  ps_visited : visited c' = visited c;
  ps_visited_urls : visited_urls c' = visited_urls c;
  ps_sleeps : sleeps c' = sleeps c;
  ps_clock : clock c' = clock c;
  ps_errors : ∀ d, errors (stats_of d c') = errors (stats_of d c);
  ps_failed_requests :
    failed_requests (metrics c') = failed_requests (metrics c);
  ps_text :
    text_queue c' = text_queue c
    ∨ ∃ text, 50 < word_count text
              ∧ PyQueue.full (text_queue c) = false
              ∧ text_queue c'
                = PyQueue.append (text_queue c)
                    {| tr_url := url; tr_text := text; tr_depth := depth |};
  ps_image_maxsize :
    PyQueue.maxsize (image_queue c') = PyQueue.maxsize (image_queue c);
  ps_image_items :
    ∃ new, PyQueue.items (image_queue c') = PyQueue.items (image_queue c) ++ new
           ∧ Forall (λ r, ir_depth r = depth) new;
  ps_tasks :
    ∃ new, tasks c' = tasks c ++ new
           ∧ Forall (λ t, task_depth t = depth + 1) new;
  ps_log :
    ∃ new, log c' = log c ++ new ∧ Forall (λ e, level e ≠ WARNING) new
}.

(** What one run of [crawl_url_dfs url depth] may do to the crawler. *)
Record task_step (url : string) (depth : Z) (c c' : Crawler) : Prop := {
  ts_max_depth : max_depth c' = max_depth c;
  ts_max_concurrent : max_concurrent c' = max_concurrent c;
  ts_is_running : is_running c' = is_running c;
  ts_clock : clock c' = clock c;
  ts_visited : visited c ⊆ visited c' ∧ visited c' ⊆ {[url]} ∪ visited c;
  ts_text_maxsize :
    PyQueue.maxsize (text_queue c') = PyQueue.maxsize (text_queue c);
  ts_text_items :
    ∃ new, PyQueue.items (text_queue c') = PyQueue.items (text_queue c) ++ new
           ∧ Forall (λ r, 50 < word_count (tr_text r) ∧ tr_depth r = depth) new;
  ts_image_maxsize :
    PyQueue.maxsize (image_queue c') = PyQueue.maxsize (image_queue c);
  ts_image_items :
    ∃ new, PyQueue.items (image_queue c') = PyQueue.items (image_queue c) ++ new
           ∧ Forall (λ r, ir_depth r = depth) new;
  ts_tasks :
    ∃ new, tasks c' = tasks c ++ new
           ∧ Forall (λ t, task_depth t = depth + 1) new;
  ts_log :
    ∃ new, log c' = log c ++ new ∧ Forall (λ e, level e ≠ WARNING) new
}.

(** ** Construction, restart and derived metrics *)

(** [int(x)] on a float: the fraction is cut off, toward zero. *)
Definition py_int (x : Q) : Z := Z.quot (Qnum x) (Zpos (Qden x)).

(** [load_visited_urls]: the in-memory set becomes the set of the URLs of
    the table.  The line it logs is written before any crawl, and [log] holds
    the lines of the crawl only. *)
Definition load_visited_urls (c : Crawler) : Crawler :=
  with_visited (dom (visited_urls c)) c.

(** [__init__].  [max_threads] is [None] when the caller leaves it out;
    [cpu_count] and [memory_gb] are what [os.cpu_count()] and
    [psutil.virtual_memory().total / 1024**3] give; the three tables are
    what the cache directory holds already, and [now] is the clock.  The
    metrics entry [start_time] is not part of [Metrics]. *)
Definition init (depth_limit : Z) (max_threads : option Z) (cpu_count : Z)
    (memory_gb : Q) (db_visited : gmap string Z)
    (db_pages : gmap string (string * Z)) (files : gmap string Image)
    (now : Z) : Crawler :=
  load_visited_urls
    {| max_depth := depth_limit;
       max_concurrent :=
         match max_threads with
         | None => Z.min (Z.min (cpu_count * 2) (py_int (memory_gb * 2))) 50
         | Some n => n
         end;
       is_running := true;
       visited := ∅;
       visited_urls := db_visited;
       pages := db_pages;
       image_files := files;
       domain_stats := ∅;
       metrics := {| pages_crawled := 0; bytes_downloaded := 0;
                     successful_requests := 0; failed_requests := 0;
                     cached_hits := 0 |};
       text_queue := PyQueue.Make (py_int (1000 * memory_gb)) [];
       image_queue := PyQueue.Make (py_int (500 * memory_gb)) [];
       tasks := []; sleeps := []; log := []; clock := now |}.

(** The entry ['success_rate'] of [get_enhanced_metrics]. *)
Definition success_rate (m : Metrics) : Q :=
  if 0 <? successful_requests m + failed_requests m
  then (inject_Z (successful_requests m)
        / inject_Z (successful_requests m + failed_requests m))%Q
  else 0%Q.

(** ** Invariants and orders used in the statements *)

(** No counter of [m'] is below that of [m]. *)
Definition metrics_le (m m' : Metrics) : Prop :=
  pages_crawled m ≤ pages_crawled m'
  ∧ bytes_downloaded m ≤ bytes_downloaded m'
  ∧ successful_requests m ≤ successful_requests m'
  ∧ failed_requests m ≤ failed_requests m'
  ∧ cached_hits m ≤ cached_hits m'.

(** A bounded queue holds no more than its [maxsize]; a queue of
    [maxsize <= 0] is unbounded. *)
Definition within_capacity {A} (q : PyQueue.t A) : Prop :=
  0 < PyQueue.maxsize q → PyQueue.qsize q ≤ PyQueue.maxsize q.

(** Every URL of the in-memory set has its row in the table
    [visited_urls]. *)
Definition visited_saved (c : Crawler) : Prop :=
  visited c ⊆ dom (visited_urls c).

(** ** Effects of the fetch, of a task and of a run *)

(** What the image loop does to the counters, the files and the capacity of
    the image queue. *)
Record images_more (c c' : Crawler) : Prop := {
  im_pages_crawled : pages_crawled (metrics c') = pages_crawled (metrics c);
  im_bytes_downloaded :
    bytes_downloaded (metrics c') = bytes_downloaded (metrics c);
  im_successful_requests :
    successful_requests (metrics c') = successful_requests (metrics c);
  im_cached_hits : cached_hits (metrics c) ≤ cached_hits (metrics c');
  im_files : image_files c ⊆ image_files c';
  im_capacity :
    within_capacity (image_queue c) → within_capacity (image_queue c')
}.

(** The tasks in flight stay within the cap, or within what they were. *)
Definition tasks_bounded (c c' : Crawler) : Prop :=
  len_tasks c' ≤ Z.max (len_tasks c) (max_concurrent c).

(** What lines 206-232 write: the page row, the counters of a success,
    the statistics of the origin, and tasks one level down. *)
Record fetched_effects (url domain content : string) (depth : Z)
    (c c' : Crawler) : Prop := {
  fe_pages : pages c' = <[url := (content, clock c)]> (pages c);
  fe_pages_crawled :
    pages_crawled (metrics c') = pages_crawled (metrics c) + 1;
  fe_bytes_downloaded :
    bytes_downloaded (metrics c')
    = bytes_downloaded (metrics c) + Z.of_nat (String.length content);
  fe_successful_requests :
    successful_requests (metrics c') = successful_requests (metrics c) + 1;
  fe_cached_hits : cached_hits (metrics c) ≤ cached_hits (metrics c');
  fe_domain_stats :
    domain_stats c'
    = <[domain := {| errors := errors (stats_of domain c);
                     success := success (stats_of domain c) + 1 |}]>
        (domain_stats c);
  fe_files : image_files c ⊆ image_files c';
  fe_image_capacity :
    within_capacity (image_queue c) → within_capacity (image_queue c');
  fe_tasks_bounded : tasks_bounded c c';
  fe_tasks_depth :
    ∃ new, tasks c' = tasks c ++ new
           ∧ Forall (λ t, task_depth t = depth + 1
                          ∧ task_depth t ≤ max_depth c
                          ∧ task_url t ∉ visited c) new
}.

(** The task for [url] at [depth] claims the URL: the crawler runs, the
    depth is within the limit and the URL is new. *)
Definition claims (url : string) (depth : Z) (c : Crawler) : bool :=
  is_running c && (depth <=? max_depth c)
  && negb (bool_decide (url ∈ visited c)).

(** The body of a response that lines 192-198 let through: status 200 and
    a content type that mentions [text/html]. *)
Definition html_content (o : FetchOutcome) : option string :=
  match o with
  | Response status content_type content =>
      if (status =? 200)
         && Py.contains "text/html" (Py.lower (default "" content_type))
      then Some content
      else None
  | _ => None
  end.

(** The page the task downloads, if it gets as far as the request and the
    response is let through. *)
Definition fetched_content (w : World) (url : string) (depth : Z) (c : Crawler)
  : option string :=
  if reaches_fetch url depth c then html_content (http_get w url) else None.

(** What a request and what follows it do to the crawler. *)
Record fetch_effects (w : World) (url : string) (depth : Z) (c c' : Crawler)
  : Prop := {
  ff_visited : visited c' = visited c;
  ff_visited_urls : visited_urls c' = visited_urls c;
  ff_pages :
    pages c' = match html_content (http_get w url) with
               | Some content => <[url := (content, clock c)]> (pages c)
               | None => pages c
               end;
  ff_pages_crawled :
    pages_crawled (metrics c')
    = pages_crawled (metrics c)
      + match html_content (http_get w url) with Some _ => 1 | None => 0 end;
  ff_successful_requests :
    successful_requests (metrics c')
    = successful_requests (metrics c)
      + match html_content (http_get w url) with Some _ => 1 | None => 0 end;
  ff_failed_requests :
    failed_requests (metrics c')
    = failed_requests (metrics c)
      + (if feeds_error_stats (http_get w url) then 1 else 0);
  ff_bytes_downloaded :
    bytes_downloaded (metrics c')
    = bytes_downloaded (metrics c)
      + match html_content (http_get w url) with
        | Some content => Z.of_nat (String.length content)
        | None => 0
        end;
  ff_cached_hits : cached_hits (metrics c) ≤ cached_hits (metrics c');
  ff_files : image_files c ⊆ image_files c';
  ff_image_capacity :
    within_capacity (image_queue c) → within_capacity (image_queue c');
  ff_text_capacity :
    within_capacity (text_queue c) → within_capacity (text_queue c');
  ff_tasks_bounded : tasks_bounded c c';
  ff_tasks_depth :
    ∃ new, tasks c' = tasks c ++ new
           ∧ Forall (λ t, task_depth t = depth + 1
                          ∧ task_depth t ≤ max_depth c
                          ∧ task_url t ∉ visited c) new;
  ff_text :
    text_queue c' = text_queue c
    ∨ ∃ text, 50 < word_count text
              ∧ PyQueue.full (text_queue c) = false
              ∧ text_queue c'
                = PyQueue.append (text_queue c)
                    {| tr_url := url; tr_text := text; tr_depth := depth |}
}.

(** What one run of [crawl_url_dfs url depth] writes. *)
Record crawl_effects (w : World) (url : string) (depth : Z) (c c' : Crawler)
  : Prop := {
  ce_noop : claims url depth c = false → c' = c;
  ce_claim :
    claims url depth c = true →
    visited c' = {[url]} ∪ visited c
    ∧ visited_urls c' = <[url := clock c]> (visited_urls c);
  ce_pages :
    pages c' = match fetched_content w url depth c with
               | Some content => <[url := (content, clock c)]> (pages c)
               | None => pages c
               end;
  ce_pages_crawled :
    pages_crawled (metrics c')
    = pages_crawled (metrics c)
      + match fetched_content w url depth c with Some _ => 1 | None => 0 end;
  ce_successful_requests :
    successful_requests (metrics c')
    = successful_requests (metrics c)
      + match fetched_content w url depth c with Some _ => 1 | None => 0 end;
  ce_failed_requests :
    failed_requests (metrics c')
    = failed_requests (metrics c)
      + (if reaches_fetch url depth c && feeds_error_stats (http_get w url)
         then 1 else 0);
  ce_bytes_downloaded :
    bytes_downloaded (metrics c')
    = bytes_downloaded (metrics c)
      + match fetched_content w url depth c with
        | Some content => Z.of_nat (String.length content)
        | None => 0
        end;
  ce_cached_hits : cached_hits (metrics c) ≤ cached_hits (metrics c');
  ce_files : image_files c ⊆ image_files c';
  ce_image_capacity :
    within_capacity (image_queue c) → within_capacity (image_queue c');
  ce_text_capacity :
    within_capacity (text_queue c) → within_capacity (text_queue c');
  ce_tasks_bounded : tasks_bounded c c';
  ce_tasks_depth :
    ∃ new, tasks c' = tasks c ++ new
           ∧ Forall (λ t, task_depth t = depth + 1
                          ∧ task_depth t ≤ max_depth c
                          ∧ task_url t ∉ visited c') new;
  ce_text :
    text_queue c' = text_queue c
    ∨ ∃ text, 50 < word_count text
              ∧ PyQueue.full (text_queue c) = false
              ∧ text_queue c'
                = PyQueue.append (text_queue c)
                    {| tr_url := url; tr_text := text; tr_depth := depth |}
}.

(** Every URL that has a row in [pages] is in the in-memory visited
    set. *)
Definition pages_claimed (c : Crawler) : Prop :=
  dom (pages c) ⊆ visited c.

(** What a whole run keeps and what it only lets grow. *)
Record run_effects (c c' : Crawler) : Prop := {
  re_max_depth : max_depth c' = max_depth c;
  re_max_concurrent : max_concurrent c' = max_concurrent c;
  re_is_running : is_running c' = is_running c;
  re_clock : clock c' = clock c;
  re_visited : visited c ⊆ visited c';
  re_visited_urls : dom (visited_urls c) ⊆ dom (visited_urls c');
  re_saved : visited_saved c → visited_saved c';
  re_claimed : pages_claimed c → pages_claimed c';
  re_pages : dom (pages c) ⊆ dom (pages c');
  re_files : image_files c ⊆ image_files c';
  re_metrics : metrics_le (metrics c) (metrics c');
  re_balance :
    pages_crawled (metrics c') - successful_requests (metrics c')
    = pages_crawled (metrics c) - successful_requests (metrics c);
  re_text_capacity :
    within_capacity (text_queue c) → within_capacity (text_queue c');
  re_image_capacity :
    within_capacity (image_queue c) → within_capacity (image_queue c')
}.

(** The crawler when [datetime.now()] has moved on to [now]. *)
Definition with_clock (now : Z) (c : Crawler) : Crawler :=
  mkCrawler (max_depth c) (max_concurrent c) (is_running c) (visited c)
    (visited_urls c) (pages c) (image_files c) (domain_stats c) (metrics c)
    (text_queue c) (image_queue c) (tasks c) (sleeps c) (log c) now.

(** ** A concrete world for the examples *)

Module Scenario.

Definition is_scheme_char (c : ascii) : bool :=
  let n := N_of_ascii c in
  (((97 <=? n) && (n <=? 122)) || ((65 <=? n) && (n <=? 90))
   || ((48 <=? n) && (n <=? 57)) || (n =? 43) || (n =? 45) || (n =? 46))%N.

Definition is_ascii_alpha (c : ascii) : bool :=
  let n := N_of_ascii c in
  (((97 <=? n) && (n <=? 122)) || ((65 <=? n) && (n <=? 90)))%N.

(** The characters before the first colon, when they can be a scheme, and
    what follows that colon. *)
Fixpoint take_scheme (acc : list ascii) (s : list ascii)
  : option (list ascii * list ascii) :=
  match s with
  | [] => None
  | c :: r =>
      if bool_decide (c = ":"%char)
      then match acc with [] => None | _ => Some (rev acc, r) end
      else if is_scheme_char c then take_scheme (c :: acc) r else None
  end.

Fixpoint take_netloc (s : list ascii) : list ascii :=
  match s with
  | [] => []
  | c :: r =>
      if bool_decide (c = "/"%char) || bool_decide (c = "?"%char)
         || bool_decide (c = "#"%char)
      then [] else c :: take_netloc r
  end.

(** The scheme of [urlsplit], in lower case, and what follows its colon:
    the scheme is what precedes the first colon when it starts with a
    letter and is made of scheme characters. *)
Definition split_scheme (url : string) : string * list ascii :=
  let l := list_ascii_of_string url in
  match l with
  | c :: _ =>
      if is_ascii_alpha c
      then match take_scheme [] l with
           | Some (sc, r) => (Py.lower (string_of_list_ascii sc), r)
           | None => ("", l)
           end
      else ("", l)
  | [] => ("", l)
  end.

(** [urllib.parse.urlparse], for its fields [scheme] and [netloc], as
    [urlsplit] computes them: the netloc is what follows [//] up to the
    next [/], [?] or [#], as written. *)
Definition urlparse (url : string) : ParseResult :=
  let '(sch, rest) := split_scheme url in
  match rest with
  | "/"%char :: "/"%char :: r =>
      {| scheme := sch; netloc := string_of_list_ascii (take_netloc r) |}
  | _ => {| scheme := sch; netloc := "" |}
  end.

(** [urlsplit] raises [ValueError] (Invalid IPv6 URL) when the netloc
    holds one of the two square brackets without the other.  The test of
    what stands between matched brackets, which later versions of urllib
    add, is left out: no example has such a netloc. *)
Definition urlparse_raises (url : string) : bool :=
  let n := netloc (urlparse url) in
  xorb (Py.contains "[" n) (Py.contains "]" n).

(** [urllib.parse.urljoin] on the references the examples use.  An empty
    side gives the other one, unparsed; otherwise both sides are parsed,
    and the [ValueError] of either is that of [urljoin].  A reference with
    a scheme that is not the base's is returned as it is written; one with
    the base's scheme and a netloc comes back with that scheme in lower
    case and the rest as written.  Any other reference is appended to the
    base, without the path resolution of urllib, which no example needs. *)
Definition urljoin (base url : string) : option string :=
  if negb (Py.truthy base) then Some url
  else if negb (Py.truthy url) then Some base
  else if urlparse_raises base || urlparse_raises url then None
  else
    let u := urlparse url in
    if Py.truthy (scheme u)
       && negb (bool_decide (scheme u = scheme (urlparse base)))
    then Some url
    else if Py.truthy (scheme u) && Py.truthy (netloc u)
    then Some (scheme u ++ ":"
               ++ string_of_list_ascii (split_scheme url).2)%string
    else Some (base ++ url)%string.

Definition seed : string := "http://seed.test/".
Definition leaf : string := "http://leaf.test/page".
Definition pic : string := "http://seed.test/pic.jpg".

(** Fifty-one words. *)
Definition body_text : string := Py.join " " (replicate 51 "word").

(** The seed's page: a paragraph, one anchor and one picture. *)
Definition seed_html : string :=
  "<p>" ++ body_text ++ "</p><a href='http://leaf.test/page'>next</a>"
  ++ "<img src='http://seed.test/pic.jpg'>".

Definition seed_soup : Soup :=
  [Elem "p" [] [Text body_text];
   Elem "a" [("href", leaf)] [Text "next"];
   Elem "img" [("src", pic)] []].

(** The page the seed links to: a paragraph and nothing else. *)
Definition leaf_html : string := "<p>" ++ body_text ++ "</p>".

Definition leaf_soup : Soup := [Elem "p" [] [Text body_text]].

(** A page of anchors to a picture, a video platform, a file server and a
    mail address. *)
Definition links_soup : Soup :=
  [Elem "a" [("href", "http://img.test/photo.JPG")] [];
   Elem "a" [("href", "https://www.youtube.com/watch?v=1")] [];
   Elem "a" [("href", "FTP://Files.Test/a#Top")] [];
   Elem "a" [("href", "mailto:someone@mail.test")] []].

(** A page whose navigation bar holds a reference that urllib refuses,
    next to an anchor to the leaf. *)
Definition broken : string := "http://broken.test/".

Definition broken_html : string :=
  "<nav><a href='http://[::1'>local</a></nav>"
  ++ "<a href='http://leaf.test/page'>next</a>".

Definition broken_soup : Soup :=
  [Elem "nav" [] [Elem "a" [("href", "http://[::1")] [Text "local"]];
   Elem "a" [("href", leaf)] [Text "next"]].

(** A page with the same two anchors and no navigation bar. *)
Definition bad : string := "http://bad.test/".

Definition bad_html : string :=
  "<a href='http://[::1'>local</a><a href='http://leaf.test/page'>next</a>".

Definition bad_soup : Soup :=
  [Elem "a" [("href", "http://[::1")] [Text "local"];
   Elem "a" [("href", leaf)] [Text "next"]].

Definition parse_html (content : string) : Soup :=
  if bool_decide (content = seed_html) then seed_soup
  else if bool_decide (content = leaf_html) then leaf_soup
  else if bool_decide (content = broken_html) then broken_soup
  else if bool_decide (content = bad_html) then bad_soup
  else [].

Definition http_get (url : string) : FetchOutcome :=
  if bool_decide (url = seed)
  then Response 200 (Some "text/html; charset=utf-8") seed_html
  else if bool_decide (url = leaf)
  then Response 200 (Some "text/html") leaf_html
  else if bool_decide (url = broken)
  then Response 200 (Some "text/html") broken_html
  else if bool_decide (url = bad)
  then Response 200 (Some "text/html") bad_html
  else if bool_decide (url = pic)
  then Response 200 (Some "image/jpeg") ""
  else if bool_decide (url = "http://seed.test/gone")
  then Response 404 (Some "text/html") ""
  else ClientError.

Definition image_get (url : string) : ImageOutcome :=
  if bool_decide (url = pic) then ImageResponse 200 (Some "pixels")
  else ImageError.

(** The MD5 digest of the one picture URL there is. *)
Definition md5_hexdigest (url : string) : string :=
  if bool_decide (url = pic) then "174a26869c07495555e40dae6397c1cf"
  else "".

Definition world : World :=
  Build_World urljoin urlparse urlparse_raises parse_html http_get image_get
    md5_hexdigest (λ image, image).

(** [DFSWebCrawler(max_depth=depth_limit, max_threads=4)] over an empty
    cache directory, with room for [text_cap] and [image_cap] records. *)
Definition new_crawler (depth_limit text_cap image_cap : Z) : Crawler :=
  {| max_depth := depth_limit; max_concurrent := 4; is_running := true;
     visited := ∅; visited_urls := ∅; pages := ∅; image_files := ∅;
     domain_stats := ∅;
     metrics := {| pages_crawled := 0; bytes_downloaded := 0;
                   successful_requests := 0; failed_requests := 0;
                   cached_hits := 0 |};
     text_queue := PyQueue.Make text_cap [];
     image_queue := PyQueue.Make image_cap [];
     tasks := []; sleeps := []; log := []; clock := 0 |}.

(** The same crawler an hour after the seed's page was cached by another
    run that left the visited table empty. *)
Definition cached_crawler (depth_limit : Z) : Crawler :=
  with_pages {[ seed := (seed_html, -3600000000) ]}
    (new_crawler depth_limit 8000 4000).

(** One error and seven successes are on record for the seed's origin. *)
Definition troubled_crawler : Crawler :=
  with_domain_stats {[ "seed.test" := {| errors := 1; success := 7 |} ]}
    (new_crawler 3 8000 4000).

(** A crawler whose two queues hold one record each and are full. *)
Definition full_crawler : Crawler :=
  with_text_queue
    (PyQueue.Make 1 [{| tr_url := leaf; tr_text := body_text; tr_depth := 0 |}])
    (with_image_queue
       (PyQueue.Make 1
          [{| ir_url := "http://leaf.test/p.png"; ir_image := "pixels";
              ir_depth := 0 |}])
       (new_crawler 3 1 1)).

End Scenario.

(** * Properties *)

(** ** Frame lemmas *)

Lemma put_not_full {A} (q : PyQueue.t A) (x : A) :
  PyQueue.full q = false → PyQueue.put q x = Some (PyQueue.append q x).
Proof. intros H. unfold PyQueue.put. by rewrite H. Qed.

Lemma emit_text_eq entry url text depth c :
  emit_text entry url text depth c =
  Some (if Py.truthy text && (50 <? word_count text)
           && negb (PyQueue.full (text_queue c))
        then
          let q := PyQueue.append (text_queue c)
                     {| tr_url := url; tr_text := text; tr_depth := depth |} in
          logging (entry (PyQueue.qsize q)) (with_text_queue q c)
        else c).
Proof.
  unfold emit_text.
  destruct (Py.truthy text && (50 <? word_count text)); [|done].
  destruct (PyQueue.full (text_queue c)) eqn:Hfull; cbn; [done|].
  by rewrite put_not_full.
Qed.

Lemma images_step_refl depth c : images_step depth c c.
Proof.
  split; try done; exists []; by rewrite app_nil_r.
Qed.

Lemma images_step_trans depth c1 c2 c3 :
  images_step depth c1 c2 → images_step depth c2 c3 → images_step depth c1 c3.
Proof.
  intros [] []. split; try congruence.
  - destruct is_items0 as (l1 & E1 & F1), is_items1 as (l2 & E2 & F2).
    exists (l1 ++ l2). rewrite E2, E1, app_assoc. split; [done|].
    by apply Forall_app.
  - destruct is_log0 as (l1 & E1 & F1), is_log1 as (l2 & E2 & F2).
    exists (l1 ++ l2). rewrite E2, E1, app_assoc. split; [done|].
    by apply Forall_app.
Qed.

Section Frames.
Context (w : World).

Lemma process_image_step img_url depth c :
  images_step depth c (process_image w img_url c).2
  ∧ image_queue (process_image w img_url c).2 = image_queue c.
Proof.
  unfold process_image.
  repeat case_match; cbn; (split; [|done]);
    (split; cbn; try done;
     first [ by exists []; rewrite app_nil_r
           | by eexists [_]; split; [done|]; repeat constructor ]).
Qed.

Lemma process_images_from_step imgs base_url depth c :
  ∃ r, process_images_from w imgs base_url depth c = Some r
       ∧ images_step depth c (after r).
Proof.
  revert c. induction imgs as [|img rest IH]; intros c;
    cbn [process_images_from].
  { eexists. split; [done|]. apply images_step_refl. }
  destruct (is_running c); cbn [negb];
    [|eexists; split; [done|apply images_step_refl]].
  destruct (Bs4.get "src" img) as [src|]; [|apply IH].
  destruct (Py.truthy src && is_valid_image_url src); [|apply IH].
  destruct (urljoin w base_url src) as [img_url|];
    [|eexists; split; [done|apply images_step_refl]].
  pose proof (process_image_step img_url depth c) as [Hs Hq].
  destruct (process_image w img_url c) as [[image|] c1];
    cbn [fst snd] in *.
  - destruct (PyQueue.full (image_queue c1)) eqn:Hfull; cbn [negb].
    + cbn [mbind option_bind].
      destruct (IH c1) as (c' & -> & Hc'). eexists. split; [done|].
      by eapply images_step_trans.
    + rewrite put_not_full by done. cbn [mbind option_bind].
      match goal with |- ∃ c', process_images_from _ _ _ _ ?c2 = _ ∧ _ =>
        destruct (IH c2) as (c' & -> & Hc'); exists c'; split; [done|];
        eapply images_step_trans; [|exact Hc'];
        eapply images_step_trans; [exact Hs|]
      end.
      split; cbn; try done.
      * eexists [_]. split; [done|]. by repeat constructor.
      * eexists [_]. split; [done|]. by repeat constructor.
  - cbn [mbind option_bind].
    destruct (IH c1) as (c' & -> & Hc'). eexists. split; [done|].
    by eapply images_step_trans.
Qed.


Lemma with_tasks_same c : with_tasks (tasks c) c = c.
Proof. by destruct c. Qed.

Lemma with_log_same c : with_log (log c) c = c.
Proof. by destruct c. Qed.

Lemma schedule_links_eq links depth c :
  ∃ new, schedule_links links depth c = with_tasks (tasks c ++ new) c
         ∧ Forall (λ t, task_depth t = depth + 1) new.
Proof.
  revert c. induction links as [|link rest IH]; intros c;
    cbn [schedule_links].
  { exists []. by rewrite app_nil_r, with_tasks_same. }
  destruct ((len_tasks c <? max_concurrent c) && is_running c); [|apply IH].
  destruct (IH (create_task link (depth + 1) c)) as (new & -> & Hnew).
  eexists (_ :: new). split.
  - unfold create_task. cbn. by rewrite <- app_assoc.
  - by constructor.
Qed.

Lemma stats_of_update_true domain d c :
  errors (stats_of d (update_domain_stats domain true c))
  = errors (stats_of d c).
Proof.
  unfold update_domain_stats, stats_of. cbn.
  destruct (decide (domain = d)) as [->|Hne].
  - by rewrite lookup_insert_eq.
  - by rewrite lookup_insert_ne.
Qed.


Lemma process_fetched_step url domain content depth c :
  ∃ c', process_fetched w url domain content depth c = Some c'
        ∧ page_step url depth c c'.
Proof.
  unfold process_fetched.
  destruct (extract_text (parse_html w content)) as [text soup].
  rewrite emit_text_eq. cbn [mbind option_bind]. unfold process_images.
  match goal with
  | |- context [cache_page url content ?c'] =>
      assert (∀ d, errors (stats_of d (cache_page url content c'))
                   = errors (stats_of d c)) as Herr
        by (intros d; etrans; [exact (stats_of_update_true domain d _)|reflexivity]);
      pose proof (eq_refl : max_depth (cache_page url content c') = max_depth c);
      pose proof (eq_refl : max_concurrent (cache_page url content c')
                            = max_concurrent c);
      pose proof (eq_refl : is_running (cache_page url content c')
                            = is_running c);
      pose proof (eq_refl : visited (cache_page url content c') = visited c);
      pose proof (eq_refl : visited_urls (cache_page url content c')
                            = visited_urls c);
      pose proof (eq_refl : sleeps (cache_page url content c') = sleeps c);
      pose proof (eq_refl : clock (cache_page url content c') = clock c);
      pose proof (eq_refl : failed_requests (metrics (cache_page url content c'))
                            = failed_requests (metrics c));
      pose proof (eq_refl : text_queue (cache_page url content c')
                            = text_queue c);
      pose proof (eq_refl : image_queue (cache_page url content c')
                            = image_queue c);
      pose proof (eq_refl : tasks (cache_page url content c') = tasks c);
      pose proof (eq_refl : log (cache_page url content c') = log c);
      generalize dependent (cache_page url content c')
  end.
  intros c0 Herr Hmd Hmc Hrun Hvis Hvu Hsl Hcl Hfail Htq Hiq Htasks Hlog.
  match goal with
  | |- context [process_images_from w ?imgs url depth ?c1] =>
      destruct (process_images_from_step imgs url depth c1) as (r & -> & H2)
  end.
  cbn [mbind option_bind].
  assert (∃ new said,
            match r with
            | Returned c =>
                if depth <? max_depth c
                then
                  match extract_links w soup url c with
                  | Some links => Some (schedule_links links depth c)
                  | None => Some (logging (LogCrawlError url) c)
                  end
                else Some c
            | Raised c => Some (logging (LogCrawlError url) c)
            end
            = Some (with_log (log (after r) ++ said)
                      (with_tasks (tasks (after r) ++ new) (after r)))
            ∧ Forall (λ t, task_depth t = depth + 1) new
            ∧ Forall (λ e, level e ≠ WARNING) said)
    as (new & said & -> & Hnew & Hsaid).
  { assert (∀ c2, c2 = with_log (log c2 ++ [])
                         (with_tasks (tasks c2 ++ []) c2)) as Hsame.
    { intros c2. by rewrite !app_nil_r, with_tasks_same, with_log_same. }
    assert (∀ c2, logging (LogCrawlError url) c2
                  = with_log (log c2 ++ [LogCrawlError url])
                      (with_tasks (tasks c2 ++ []) c2)) as Herror.
    { intros c2. by rewrite app_nil_r, with_tasks_same. }
    destruct r as [c2|c2]; cbn [after].
    - destruct (depth <? max_depth c2).
      + destruct (extract_links w soup url c2) as [links|].
        * destruct (schedule_links_eq links depth c2) as (new & -> & Hnew).
          exists new, []. split_and!; [|done|done].
          by rewrite app_nil_r.
        * exists [], [LogCrawlError url]. split_and!; [|done|].
          -- by rewrite <- Herror.
          -- by repeat constructor.
      + exists [], []. split_and!; [|done|done]. by rewrite <- Hsame.
    - exists [], [LogCrawlError url]. split_and!; [|done|].
      + by rewrite <- Herror.
      + by repeat constructor. }
  eexists. split; [done|].
  generalize dependent (after r). intros c2 H2.
  destruct H2 as [? ? ? ? ? ? Hds ? ? ? ? ? ? ? (imgs & Himgs & Hdepth)
                    (l & Hl & Hlv)].
  assert (∀ d, errors (stats_of d (with_log (log c2 ++ said)
                                     (with_tasks (tasks c2 ++ new) c2)))
               = errors (stats_of d c)) as Herr'.
  { intros d. rewrite <- Herr. unfold stats_of. cbn. rewrite Hds.
    by destruct (_ && _). }
  destruct (Py.truthy text) eqn:Ht; cbn [andb] in *;
    [destruct (Z.ltb_spec 50 (word_count text)); cbn [andb] in *;
     [destruct (PyQueue.full (text_queue c0)) eqn:Hfull; cbn [negb] in *|]|].
  all: split; cbn in *; try congruence.
  all: try (by left; congruence).
  all: try (by eexists; split; [|done]; congruence).
  all: try (by exists (l ++ said); split;
              [rewrite Hl, <- Hlog; by rewrite <- app_assoc
              |by apply Forall_app]).
  - right. exists text. rewrite <- Htq. split_and!; try done; congruence.
  - eexists (_ :: l ++ said). split.
    + rewrite Hl, <- Hlog. cbn. by rewrite <- !app_assoc.
    + constructor; [done|]. by apply Forall_app.
Qed.


Lemma task_step_refl url depth c : task_step url depth c c.
Proof.
  split; try done; try (exists []; by rewrite app_nil_r). set_solver.
Qed.

Lemma task_step_trans url depth c1 c2 c3 :
  task_step url depth c1 c2 → task_step url depth c2 c3 →
  task_step url depth c1 c3.
Proof.
  intros [? ? ? ? [? ?] ? (t1 & Et1 & Ft1) ? (i1 & Ei1 & Fi1) (k1 & Ek1 & Fk1)
            (l1 & El1 & Fl1)]
         [? ? ? ? [? ?] ? (t2 & Et2 & Ft2) ? (i2 & Ei2 & Fi2) (k2 & Ek2 & Fk2)
            (l2 & El2 & Fl2)].
  split; try congruence.
  - set_solver.
  - exists (t1 ++ t2). rewrite Et2, Et1, app_assoc. by rewrite Forall_app.
  - exists (i1 ++ i2). rewrite Ei2, Ei1, app_assoc. by rewrite Forall_app.
  - exists (k1 ++ k2). rewrite Ek2, Ek1, app_assoc. by rewrite Forall_app.
  - exists (l1 ++ l2). rewrite El2, El1, app_assoc. by rewrite Forall_app.
Qed.

Lemma page_step_task_step url depth c c' :
  page_step url depth c c' → task_step url depth c c'.
Proof.
  intros []. split; try done.
  - rewrite ps_visited0. set_solver.
  - by destruct ps_text0 as [->|(text & ? & ? & ->)].
  - destruct ps_text0 as [->|(text & ? & ? & ->)].
    + exists []. by rewrite app_nil_r.
    + eexists [_]. split; [done|]. by repeat constructor.
Qed.

Lemma emit_text_step entry url text depth c :
  (∀ n, level (entry n) ≠ WARNING) →
  ∃ c', emit_text entry url text depth c = Some c'
        ∧ task_step url depth c c'
        ∧ tasks c' = tasks c ∧ image_queue c' = image_queue c
        ∧ image_files c' = image_files c ∧ sleeps c' = sleeps c
        ∧ domain_stats c' = domain_stats c ∧ pages c' = pages c
        ∧ visited c' = visited c.
Proof.
  intros Hentry. rewrite emit_text_eq. eexists. split; [done|].
  destruct (Py.truthy text); cbn [andb];
    [|by split; [apply task_step_refl|]].
  destruct (Z.ltb_spec 50 (word_count text)); cbn [andb];
    [|by split; [apply task_step_refl|]].
  destruct (negb _); [|by split; [apply task_step_refl|]].
  split; [|done]. split; cbn; try done; try (exists []; by rewrite app_nil_r).
  - set_solver.
  - eexists [_]. split; [done|]. by repeat constructor.
  - eexists [_]. split; [done|]. by repeat constructor.
Qed.

Lemma process_cached_content_step url content depth c :
  ∃ c', process_cached_content w url content depth c = Some c'
        ∧ task_step url depth c c'
        ∧ tasks c' = tasks c ∧ image_queue c' = image_queue c
        ∧ image_files c' = image_files c ∧ sleeps c' = sleeps c
        ∧ domain_stats c' = domain_stats c ∧ pages c' = pages c
        ∧ visited c' = visited c.
Proof.
  unfold process_cached_content.
  destruct (extract_text (parse_html w content)) as [text soup].
  by apply emit_text_step.
Qed.

Lemma process_fetched_task_step url domain content depth c :
  ∃ c', process_fetched w url domain content depth c = Some c'
        ∧ task_step url depth c c'.
Proof.
  destruct (process_fetched_step url domain content depth c) as (c' & ? & ?).
  exists c'. split; [done|]. by apply page_step_task_step.
Qed.

(** Steps that touch none of the fields [task_step] speaks of but
    [visited] and the log. *)
Ltac quiet_step :=
  split; cbn; try done; try (exists []; by rewrite app_nil_r);
  try set_solver;
  try (eexists [_]; split; [done|]; by repeat constructor).

Lemma fetch_page_step url domain depth c :
  ∃ c', fetch_page w url domain depth c = Some c' ∧ task_step url depth c c'.
Proof.
  unfold fetch_page.
  destruct (http_get w url) as [| |status content_type content].
  - eexists. split; [done|]. quiet_step.
  - eexists. split; [done|]. quiet_step.
  - destruct (negb (status =? 200)).
    { eexists. split; [done|]. quiet_step. }
    destruct (negb (Py.contains _ _)).
    { eexists. split; [done|]. quiet_step. }
    match goal with |- context [process_fetched w url domain content depth ?c0] =>
      destruct (process_fetched_task_step url domain content depth c0)
        as (c' & -> & Hc')
    end.
    exists c'. split; [done|].
    eapply task_step_trans; [|exact Hc']. quiet_step.
Qed.

Lemma crawl_url_dfs_step url depth c :
  ∃ c', crawl_url_dfs w url depth c = Some c' ∧ task_step url depth c c'.
Proof.
  unfold crawl_url_dfs.
  destruct (negb (is_running c) || (max_depth c <? depth)
            || bool_decide (url ∈ visited c)).
  { eexists. split; [done|]. apply task_step_refl. }
  destruct (bool_decide (url ∈ visited c)).
  { eexists. split; [done|]. apply task_step_refl. }
  match goal with |- context [get_cached_page url ?c0] =>
    assert (task_step url depth c c0) as H0 by quiet_step;
    generalize dependent c0
  end.
  intros c0 H0.
  assert (task_step url depth c0 (get_cached_page url c0).2) as H1.
  { unfold get_cached_page. repeat case_match; cbn; quiet_step. }
  destruct (get_cached_page url c0) as [[content|] c1]; cbn [snd] in H1.
  - destruct (Py.truthy content).
    + destruct (process_cached_content_step url content depth c1)
        as (c' & -> & Hc' & _).
      exists c'. split; [done|].
      eapply task_step_trans; [exact H0|]. by eapply task_step_trans.
    + destruct (fetch_page_step url (netloc (urlparse w url)) depth c1)
        as (c' & -> & Hc').
      exists c'. split; [done|].
      eapply task_step_trans; [exact H0|]. by eapply task_step_trans.
  - destruct (fetch_page_step url (netloc (urlparse w url)) depth c1)
      as (c' & -> & Hc').
    exists c'. split; [done|].
    eapply task_step_trans; [exact H0|]. by eapply task_step_trans.
Qed.

End Frames.

(** ** The page cache *)

(** C6: [get_cached_page] returns the stored content exactly when the
    table has a row for the URL whose [last_crawled] is less than 24 hours
    before now; in every other case it returns [None]; and it never
    changes the table, so a stale row is neither returned nor deleted. *)
Theorem get_cached_page_fresh_iff (url : string) (c : Crawler) :
  (∀ content,
     (get_cached_page url c).1 = Some content
     ↔ ∃ last_crawled,
         pages c !! url = Some (content, last_crawled)
         ∧ clock c - last_crawled < hours_24)
  ∧ ((get_cached_page url c).1 = None
     ↔ ¬ ∃ content last_crawled,
           pages c !! url = Some (content, last_crawled)
           ∧ clock c - last_crawled < hours_24)
  ∧ pages (get_cached_page url c).2 = pages c.
Proof.
  unfold get_cached_page.
  destruct (pages c !! url) as [[content0 t0]|] eqn:Hrow.
  - destruct (Z.ltb_spec (clock c - t0) hours_24) as [Hfresh|Hstale]; cbn.
    + split; [|split]; [| |done].
      * intros content; split.
        -- intros [= <-]. by exists t0.
        -- intros (t & [= <- <-] & _). done.
      * split; [done|]. intros Hno. exfalso. apply Hno. by exists content0, t0.
    + split; [|split]; [| |done].
      * intros content; split; [done|].
        intros (t & [= <- <-] & Hlt). lia.
      * split; [|done]. intros _ (content & t & [= <- <-] & Hlt). lia.
  - cbn. split; [|split]; [| |done].
    + intros content; split; [done|]. by intros (t & ? & _).
    + split; [|done]. by intros _ (content & t & ? & _).
Qed.
(** ** The scheduler loop *)

Section Loop.
Context (w : World).

Lemma with_metrics_same c : with_metrics (metrics c) c = c.
Proof. by destruct c. Qed.

Lemma get_cached_page_metrics url c :
  ∃ m, (get_cached_page url c).2 = with_metrics m c.
Proof.
  unfold get_cached_page. repeat case_match; cbn [snd].
  - by eexists.
  - exists (metrics c). by rewrite with_metrics_same.
  - exists (metrics c). by rewrite with_metrics_same.
Qed.

Lemma collect_unvisited_metrics urls unvisited_urls c :
  ∃ m, (collect_unvisited w urls unvisited_urls c).2 = with_metrics m c.
Proof.
  revert unvisited_urls c.
  induction urls as [|visited_url rest IH]; intros unvisited_urls c;
    cbn [collect_unvisited].
  { exists (metrics c). by rewrite with_metrics_same. }
  destruct (get_cached_page_metrics visited_url c) as (m & Hm).
  destruct (get_cached_page visited_url c) as [cached_content c1].
  cbn [snd] in Hm. subst c1.
  assert (∀ acc, ∃ m', (collect_unvisited w rest acc (with_metrics m c)).2
                       = with_metrics m' c) as Hrest.
  { intros acc. destruct (IH acc (with_metrics m c)) as (m' & ->).
    by exists m'. }
  destruct cached_content as [content|]; [|apply Hrest].
  destruct (Py.truthy content); [|apply Hrest].
  destruct (extract_links _ _ _ _); [apply Hrest|by exists m].
Qed.

Lemma create_new_tasks_eq unvisited_urls c :
  ∃ new, create_new_tasks unvisited_urls c = with_tasks (tasks c ++ new) c
         ∧ Forall (λ t, task_depth t = 0) new.
Proof.
  revert c. induction unvisited_urls as [|url rest IH]; intros c;
    cbn [create_new_tasks].
  { exists []. by rewrite app_nil_r, with_tasks_same. }
  destruct (max_concurrent c <=? len_tasks c).
  { exists []. by rewrite app_nil_r, with_tasks_same. }
  destruct (negb (bool_decide (url ∈ visited c)) && is_running c); [|apply IH].
  destruct (IH (create_task url 0 c)) as (new & -> & Hnew).
  eexists (_ :: new). split.
  - unfold create_task. cbn. by rewrite <- app_assoc.
  - by constructor.
Qed.

Lemma rescan_eq c :
  ∃ m new, rescan w c = with_tasks (tasks c ++ new) (with_metrics m c)
           ∧ Forall (λ t, task_depth t = 0) new.
Proof.
  unfold rescan, rescan_ended.
  destruct ((len_tasks c <? max_concurrent c) && is_running c).
  2:{ exists (metrics c), []. cbn [after].
      by rewrite app_nil_r, with_metrics_same, with_tasks_same. }
  destruct (collect_unvisited_metrics (elements (visited c)) [] c) as (m & Hm).
  destruct (collect_unvisited w (elements (visited c)) [] c)
    as [[unvisited_urls|] c1]; cbn [snd after] in *; subst c1.
  - destruct (create_new_tasks_eq unvisited_urls (with_metrics m c))
      as (new & -> & Hnew).
    by exists m, new.
  - exists m, []. by rewrite app_nil_r.
Qed.

Lemma rescan_ended_cases c :
  rescan_ended w c = Returned (rescan w c)
  ∨ rescan_ended w c = Raised (rescan w c).
Proof. unfold rescan. destruct (rescan_ended w c); auto. Qed.

Lemma rescan_queues c :
  text_queue (rescan w c) = text_queue c
  ∧ image_queue (rescan w c) = image_queue c.
Proof. by destruct (rescan_eq c) as (m & new & -> & _). Qed.

Lemma log_progress_eq c :
  ∃ new, log_progress c = with_log (log c ++ new) c
         ∧ Forall (λ e, level e ≠ WARNING) new.
Proof.
  unfold log_progress. destruct (tasks c).
  - exists []. rewrite app_nil_r. by destruct c.
  - eexists [_]. split; [done|]. by repeat constructor.
Qed.

(** One round of the loop after its task is over: the done-callback, the
    rescan and the progress line leave both queues alone. *)
Lemma round_end_queues c :
  let c' := log_progress (rescan w (with_tasks (tail (tasks c)) c)) in
  text_queue c' = text_queue c ∧ image_queue c' = image_queue c.
Proof.
  cbn zeta.
  destruct (rescan_eq (with_tasks (tail (tasks c)) c)) as (m & new & -> & _).
  match goal with |- context [log_progress ?c0] =>
    destruct (log_progress_eq c0) as (l & -> & _)
  end.
  done.
Qed.

Lemma run_loop_text_queue fuel c c' :
  run_loop w fuel c = Some c' →
  ∃ new, PyQueue.items (text_queue c') = PyQueue.items (text_queue c) ++ new
         ∧ Forall (λ r, 50 < word_count (tr_text r)) new.
Proof.
  revert c. induction fuel as [|fuel IH]; intros c; cbn [run_loop].
  - destruct (tasks c); [|destruct (negb (is_running c))]; try done;
      intros [= <-]; exists []; by rewrite app_nil_r.
  - destruct (tasks c) as [|t rest] eqn:Ht.
    { intros [= <-]; exists []; by rewrite app_nil_r. }
    destruct (negb (is_running c)).
    { intros [= <-]; exists []; by rewrite app_nil_r. }
    destruct (crawl_url_dfs_step w (task_url t) (task_depth t) c)
      as (c1 & -> & Hstep).
    cbn [mbind option_bind].
    destruct (ts_text_items _ _ _ _ Hstep) as (new1 & E1 & F1).
    assert (Forall (λ r, 50 < word_count (tr_text r)) new1) as F1'.
    { eapply Forall_impl; [exact F1|]. by intros r [? _]. }
    destruct (rescan_ended_cases (with_tasks (tail (tasks c1)) c1))
      as [-> | ->].
    + intros Hrun.
      destruct (IH _ Hrun) as (new2 & E2 & F2).
      destruct (round_end_queues c1) as [Hq _]. cbn zeta in Hq.
      rewrite Hq in E2.
      exists (new1 ++ new2). rewrite E2, E1, app_assoc. split; [done|].
      by apply Forall_app.
    + intros [= <-].
      destruct (rescan_queues (with_tasks (tail (tasks c1)) c1)) as [Hq _].
      exists new1. split; [|done]. cbn. by rewrite Hq.
Qed.

Lemma create_initial_tasks_eq seed_urls c :
  ∃ new, create_initial_tasks seed_urls c = with_tasks (tasks c ++ new) c
         ∧ Forall (λ t, task_depth t = 0) new.
Proof.
  revert c. induction seed_urls as [|url rest IH]; intros c;
    cbn [create_initial_tasks].
  { exists []. by rewrite app_nil_r, with_tasks_same. }
  destruct (len_tasks c <? max_concurrent c); [|apply IH].
  destruct (IH (create_task url 0 c)) as (new & -> & Hnew).
  eexists (_ :: new). split.
  - unfold create_task. cbn. by rewrite <- app_assoc.
  - by constructor.
Qed.

End Loop.

(** ** The text floor *)

(** C2: a record enters the text queue only with more than 50 words.  One
    task, whether it fetches the page or finds it in the cache, returns and
    leaves the queue as it was but for appended records of more than 50
    words; and the same holds from the start to the end of a whole run. *)
Theorem text_records_above_floor (w : World) :
  (∀ url depth c,
     ∃ c', crawl_url_dfs w url depth c = Some c'
           ∧ ∃ new,
               PyQueue.items (text_queue c')
               = PyQueue.items (text_queue c) ++ new
               ∧ Forall (λ r, 50 < word_count (tr_text r)) new)
  ∧ (∀ fuel seed_urls c c',
       run_crawler w fuel seed_urls c = Some c' →
       ∃ new,
         PyQueue.items (text_queue c') = PyQueue.items (text_queue c) ++ new
         ∧ Forall (λ r, 50 < word_count (tr_text r)) new).
Proof.
  split.
  - intros url depth c.
    destruct (crawl_url_dfs_step w url depth c) as (c' & Hc' & Hstep).
    exists c'. split; [done|].
    destruct (ts_text_items _ _ _ _ Hstep) as (new & E & F).
    exists new. split; [done|].
    eapply Forall_impl; [exact F|]. by intros r [? _].
  - intros fuel seed_urls c c' Hrun. unfold run_crawler in Hrun.
    destruct (run_loop_text_queue w _ _ _ Hrun) as (new & E & F).
    destruct (create_initial_tasks_eq seed_urls c) as (ts & Hts & _).
    rewrite Hts in E. by exists new.
Qed.

(** The run of the example: the seed's page has 51 words and its record is
    the one the run adds. *)
Lemma text_records_above_floor_witness :
  ∃ c', run_crawler Scenario.world 5 [Scenario.seed]
          (Scenario.new_crawler 0 8000 4000) = Some c'
        ∧ ∃ new,
            PyQueue.items (text_queue c')
            = PyQueue.items (text_queue (Scenario.new_crawler 0 8000 4000))
              ++ new
            ∧ Forall (λ r, 50 < word_count (tr_text r)) new.
Proof.
  eexists. split.
  - vm_compute. reflexivity.
  - apply (proj2 (text_records_above_floor Scenario.world) 5%nat [Scenario.seed]).
    vm_compute. reflexivity.
Defined.

(** ** The adaptive delay *)

Lemma success_factor_floor (s : Z) :
  (1 # 2 <= Qmax (5 # 10) (1 - inject_Z s * (1 # 10)))%Q.
Proof.
  eapply Qle_trans; [|apply Q.le_max_l]. unfold Qle; cbn; lia.
Qed.

Lemma success_factor_five (s : Z) :
  5 ≤ s → (Qmax (5 # 10) (1 - inject_Z s * (1 # 10)) == 1 # 2)%Q.
Proof.
  intros Hs. rewrite Q.max_l; [reflexivity|].
  assert (inject_Z 5 <= inject_Z s)%Q by (rewrite <- Zle_Qle; lia).
  change (inject_Z 5) with 5%Q in *. lra.
Qed.

Lemma fetch_page_sleeps (w : World) url domain depth c c' :
  fetch_page w url domain depth c = Some c' →
  sleeps c' = sleeps c ++ [get_adaptive_delay domain c].
Proof.
  unfold fetch_page.
  destruct (http_get w url) as [| |status content_type content];
    [by intros [= <-]..|].
  destruct (negb (status =? 200)); [by intros [= <-]|].
  destruct (negb (Py.contains _ _)); [by intros [= <-]|].
  match goal with |- context [process_fetched w url domain content depth ?c0] =>
    destruct (process_fetched_step w url domain content depth c0)
      as (c'' & -> & Hc'')
  end.
  intros [= <-]. by rewrite (ps_sleeps _ _ _ _ Hc'').
Qed.

(** C5: for an origin with [e] recorded errors and [s] recorded successes
    the delay is 1.0 × (1 + 0.5·e) × max(0.5, 1 − 0.1·s), and this very
    delay is what a fetch sleeps before its request; with no error it is at
    least 0.5, and exactly 0.5 once [s ≥ 5]; and whatever bound is given,
    enough errors bring the delay above it. *)
Theorem adaptive_delay_formula (domain : string) (c : Crawler) (e s : Z) :
  stats_of domain c = {| errors := e; success := s |} →
  (get_adaptive_delay domain c
   == 1 * (1 + (1 # 2) * inject_Z e) * Qmax (1 # 2) (1 - (1 # 10) * inject_Z s))%Q
  ∧ (∀ w url depth c',
       fetch_page w url domain depth c = Some c' →
       sleeps c' = sleeps c ++ [get_adaptive_delay domain c])
  ∧ (e = 0 → (1 # 2 <= get_adaptive_delay domain c)%Q)
  ∧ (e = 0 → 5 ≤ s → (get_adaptive_delay domain c == 1 # 2)%Q)
  ∧ (∀ bound : Q, ∃ e' : Z,
       0 ≤ e'
       ∧ ∀ c', stats_of domain c' = {| errors := e'; success := s |} →
               (bound < get_adaptive_delay domain c')%Q).
Proof.
  intros Hst. unfold get_adaptive_delay. rewrite Hst. cbn [errors success].
  split_and!.
  - assert (Qmax (5 # 10) (1 - inject_Z s * (1 # 10))
            == Qmax (1 # 2) (1 - (1 # 10) * inject_Z s))%Q as ->.
    { apply Q.max_compat; [reflexivity|ring]. }
    ring.
  - intros w url depth c' Hfetch.
    rewrite (fetch_page_sleeps _ _ _ _ _ _ Hfetch).
    unfold get_adaptive_delay. by rewrite Hst.
  - intros ->. pose proof (success_factor_floor s) as Hfloor.
    change (inject_Z 0) with 0%Q. lra.
  - intros -> H5. rewrite (success_factor_five s H5).
    change (inject_Z 0) with 0%Q. lra.
  - intros bound. exists (Z.max 0 (Qceiling (4 * bound))). split; [lia|].
    intros c'' Hst'. rewrite Hst'. cbn [errors success].
    pose proof (success_factor_floor s) as Hfloor.
    pose proof (Qle_ceiling (4 * bound)) as Hceil.
    assert (inject_Z (Qceiling (4 * bound))
            <= inject_Z (Z.max 0 (Qceiling (4 * bound))))%Q as Hmax
      by (rewrite <- Zle_Qle; lia).
    assert (0 <= inject_Z (Z.max 0 (Qceiling (4 * bound))))%Q as Hpos
      by (change 0%Q with (inject_Z 0); rewrite <- Zle_Qle; lia).
    set (x := inject_Z (Z.max 0 (Qceiling (4 * bound)))) in *.
    set (f := Qmax (5 # 10) (1 - inject_Z s * (1 # 10))) in *.
    nra.
Qed.

(** With one error and seven successes the delay is 1.5 × 0.5. *)
Lemma adaptive_delay_formula_witness :
  (get_adaptive_delay "seed.test" Scenario.troubled_crawler == 3 # 4)%Q.
Proof.
  destruct (adaptive_delay_formula "seed.test" Scenario.troubled_crawler 1 7)
    as (Heq & _); [reflexivity|].
  rewrite Heq. reflexivity.
Defined.

(** ** Full queues *)

Lemma process_image_log (w : World) img_url c :
  image_queue (process_image w img_url c).2 = image_queue c
  ∧ (log (process_image w img_url c).2 = log c
     ∨ log (process_image w img_url c).2 = log c ++ [LogImageError img_url]).
Proof.
  unfold process_image. repeat case_match; cbn; auto.
Qed.

Lemma process_image_loaded (w : World) img_url c image :
  (process_image w img_url c).1 = Some image →
  image_queue (process_image w img_url c).2 = image_queue c
  ∧ log (process_image w img_url c).2 = log c.
Proof.
  unfold process_image. repeat case_match; cbn; by intros.
Qed.

Lemma process_images_from_full (w : World) imgs base_url depth c :
  PyQueue.full (image_queue c) = true →
  ∃ r, process_images_from w imgs base_url depth c = Some r
       ∧ image_queue (after r) = image_queue c
       ∧ ∃ new, log (after r) = log c ++ new
                ∧ Forall (λ e, ∃ u, e = LogImageError u) new.
Proof.
  revert c. induction imgs as [|img rest IH]; intros c Hfull;
    cbn [process_images_from].
  { eexists. split_and!; [done..|]. exists []. by rewrite app_nil_r. }
  destruct (is_running c); cbn [negb].
  2:{ eexists. split_and!; [done..|]. exists []. by rewrite app_nil_r. }
  destruct (Bs4.get "src" img) as [src|]; [|by apply IH].
  destruct (Py.truthy src && is_valid_image_url src); [|by apply IH].
  destruct (urljoin w base_url src) as [img_url|].
  2:{ eexists. split_and!; [done..|]. exists []. by rewrite app_nil_r. }
  destruct (process_image_log w img_url c) as [Hq Hlog].
  destruct (process_image w img_url c) as [processed c1].
  cbn [snd] in Hq, Hlog.
  assert (PyQueue.full (image_queue c1) = true) as Hfull1 by by rewrite Hq.
  assert ((match processed with
           | Some image =>
               if negb (PyQueue.full (image_queue c1))
               then
                 q ← PyQueue.put (image_queue c1)
                       {| ir_url := img_url; ir_image := image;
                          ir_depth := depth |};
                 Some (logging (LogAddedImage img_url (PyQueue.qsize q))
                         (with_image_queue q c1))
               else Some c1
           | None => Some c1
           end) = Some c1) as ->.
  { destruct processed; [|done]. by rewrite Hfull1. }
  cbn [mbind option_bind].
  destruct (IH c1 Hfull1) as (r & -> & Hq' & new & Hnew & Fnew).
  exists r. split_and!; [done|congruence|].
  destruct Hlog as [Hlog|Hlog]; rewrite Hlog in Hnew.
  - by exists new.
  - rewrite <- app_assoc in Hnew. eexists. split; [exact Hnew|].
    constructor; [by eexists|done].
Qed.

Lemma process_fetched_full (w : World) url domain content depth c c' :
  process_fetched w url domain content depth c = Some c' →
  (PyQueue.full (text_queue c) = true → text_queue c' = text_queue c)
  ∧ (PyQueue.full (image_queue c) = true → image_queue c' = image_queue c).
Proof.
  intros Hc'. split; intros Hfull.
  - destruct (process_fetched_step w url domain content depth c)
      as (c'' & Hc'' & Hstep).
    assert (c'' = c') as -> by congruence.
    destruct (ps_text _ _ _ _ Hstep) as [?|(text & _ & Hroom & _)];
      [done|congruence].
  - revert Hc'. unfold process_fetched.
    destruct (extract_text (parse_html w content)) as [text soup].
    rewrite emit_text_eq. cbn [mbind option_bind]. unfold process_images.
    match goal with
    | |- context [process_images_from w ?imgs url depth ?c1] =>
        destruct (process_images_from_full w imgs url depth c1)
          as (r & -> & Hq & _);
        [by destruct (_ && _ && _)|];
        assert (image_queue c1 = image_queue c) as Hq1
          by by destruct (_ && _ && _)
    end.
    rewrite Hq1 in Hq. cbn [mbind option_bind].
    destruct r as [c2|c2]; cbn [after] in Hq; [|by intros [= <-]].
    destruct (depth <? max_depth c2); [|by intros [= <-]].
    destruct (extract_links w soup url c2) as [links|]; [|by intros [= <-]].
    destruct (schedule_links_eq links depth c2) as (new & -> & _).
    by intros [= <-].
Qed.

Lemma fetch_page_full (w : World) url domain depth c c' :
  fetch_page w url domain depth c = Some c' →
  (PyQueue.full (text_queue c) = true → text_queue c' = text_queue c)
  ∧ (PyQueue.full (image_queue c) = true → image_queue c' = image_queue c).
Proof.
  unfold fetch_page.
  destruct (http_get w url) as [| |status content_type content];
    [by intros [= <-]..|].
  destruct (negb (status =? 200)); [by intros [= <-]|].
  destruct (negb (Py.contains _ _)); [by intros [= <-]|].
  intros Hc'. exact (process_fetched_full w _ _ _ _ _ _ Hc').
Qed.

Lemma crawl_url_dfs_full (w : World) url depth c c' :
  crawl_url_dfs w url depth c = Some c' →
  (PyQueue.full (text_queue c) = true → text_queue c' = text_queue c)
  ∧ (PyQueue.full (image_queue c) = true → image_queue c' = image_queue c).
Proof.
  unfold crawl_url_dfs.
  destruct (negb (is_running c) || (max_depth c <? depth)
            || bool_decide (url ∈ visited c)); [by intros [= <-]|].
  destruct (bool_decide (url ∈ visited c)); [by intros [= <-]|].
  match goal with |- context [get_cached_page url ?c0] =>
    assert (text_queue (get_cached_page url c0).2 = text_queue c
            ∧ image_queue (get_cached_page url c0).2 = image_queue c)
      as [Ht Hi] by (unfold get_cached_page; by repeat case_match);
    destruct (get_cached_page url c0) as [cached_content c1]
  end.
  cbn [snd] in Ht, Hi. rewrite <- Ht, <- Hi.
  assert (∀ content, process_cached_content w url content depth c1 = Some c' →
            (PyQueue.full (text_queue c1) = true →
             text_queue c' = text_queue c1)
            ∧ (PyQueue.full (image_queue c1) = true →
               image_queue c' = image_queue c1)) as Hcached.
  { intros content. unfold process_cached_content.
    destruct (extract_text (parse_html w content)) as [text soup].
    rewrite emit_text_eq. intros [= <-]. split; intros Hfull.
    - by rewrite Hfull, andb_false_r.
    - by destruct (_ && _ && _). }
  destruct cached_content as [content|];
    [destruct (Py.truthy content); [apply Hcached|]|];
    apply fetch_page_full.
Qed.

(** C4, as the code has it: a record produced while its queue is full is
    dropped and no line is logged for it.  With a full text queue the text
    step returns the crawler as it was.  With a full image queue, the turn
    of the image loop for a picture that was loaded goes on to the next
    [img] from the crawler as [process_image] left it, whose queue and log
    are those from before the turn; and the whole loop ends, leaves the
    queue as it was and logs nothing but failures to load a picture.  A
    task always returns (it is never stuck in [Queue.put]), and it leaves a
    queue that was full as it was. *)
Theorem full_queue_drops_silently (w : World) :
  (∀ entry url text depth c,
     PyQueue.full (text_queue c) = true →
     emit_text entry url text depth c = Some c)
  ∧ (∀ img rest base_url depth c src img_url image c1,
       PyQueue.full (image_queue c) = true →
       is_running c = true →
       Bs4.get "src" img = Some src →
       Py.truthy src && is_valid_image_url src = true →
       urljoin w base_url src = Some img_url →
       process_image w img_url c = (Some image, c1) →
       process_images_from w (img :: rest) base_url depth c
       = process_images_from w rest base_url depth c1
       ∧ image_queue c1 = image_queue c
       ∧ log c1 = log c)
  ∧ (∀ imgs base_url depth c,
       PyQueue.full (image_queue c) = true →
       ∃ r, process_images_from w imgs base_url depth c = Some r
            ∧ image_queue (after r) = image_queue c
            ∧ ∃ new, log (after r) = log c ++ new
                     ∧ Forall (λ e, ∃ u, e = LogImageError u) new)
  ∧ (∀ url depth c,
       ∃ c', crawl_url_dfs w url depth c = Some c'
             ∧ (PyQueue.full (text_queue c) = true →
                text_queue c' = text_queue c)
             ∧ (PyQueue.full (image_queue c) = true →
                image_queue c' = image_queue c)).
Proof.
  split_and!.
  - intros entry url text depth c Hfull. rewrite emit_text_eq, Hfull.
    by rewrite andb_false_r.
  - intros img rest base_url depth c src img_url image c1
      Hfull Hrun Hsrc Hvalid Hjoin Himage.
    destruct (process_image_loaded w img_url c image) as [Hq Hlog];
      [by rewrite Himage|].
    rewrite Himage in Hq, Hlog. cbn [snd] in Hq, Hlog.
    split; [|done]. cbn [process_images_from].
    rewrite Hrun, Hsrc, Hvalid, Hjoin, Himage. cbn [negb].
    by rewrite Hq, Hfull.
  - intros imgs base_url depth c. apply process_images_from_full.
  - intros url depth c.
    destruct (crawl_url_dfs_step w url depth c) as (c' & Hc' & _).
    exists c'. split; [done|]. by apply (crawl_url_dfs_full w url depth).
Qed.

(** Both queues of the example crawler are full; the seed's picture is
    loaded and its record dropped, and the task on the seed leaves both
    queues as they were. *)
Lemma full_queue_drops_silently_witness :
  emit_text (LogAddedText Scenario.seed) Scenario.seed Scenario.body_text 0
    Scenario.full_crawler = Some Scenario.full_crawler
  ∧ (process_images_from Scenario.world
       [Elem "img" [("src", Scenario.pic)] []] Scenario.seed 0
       Scenario.full_crawler
     = Some (Returned
               (process_image Scenario.world Scenario.pic
                  Scenario.full_crawler).2)
     ∧ log (process_image Scenario.world Scenario.pic Scenario.full_crawler).2
       = [])
  ∧ ∃ c', crawl_url_dfs Scenario.world Scenario.seed 0 Scenario.full_crawler
          = Some c'
          ∧ text_queue c' = text_queue Scenario.full_crawler
          ∧ image_queue c' = image_queue Scenario.full_crawler.
Proof.
  destruct (full_queue_drops_silently Scenario.world)
    as (Htext & Hstep & _ & Htask).
  split; [|split].
  - apply Htext. vm_compute. reflexivity.
  - destruct (Hstep (Elem "img" [("src", Scenario.pic)] []) [] Scenario.seed 0
                Scenario.full_crawler Scenario.pic Scenario.pic "pixels"
                (process_image Scenario.world Scenario.pic
                   Scenario.full_crawler).2)
      as (Hturn & _ & Hlog).
    + vm_compute. reflexivity.
    + reflexivity.
    + reflexivity.
    + vm_compute. reflexivity.
    + vm_compute. reflexivity.
    + vm_compute. reflexivity.
    + split; [exact Hturn|exact Hlog].
  - destruct (Htask Scenario.seed 0 Scenario.full_crawler)
      as (c' & Hc' & Ht & Hi).
    exists c'. split; [done|]. split.
    + apply Ht. vm_compute. reflexivity.
    + apply Hi. vm_compute. reflexivity.
Defined.

(** C4 as the spec words it fails: with both queues full, the task on the
    seed produces a text of 51 words and loads the picture, drops both
    records, and the only entry it logs is the line that announces the
    crawl: no warning, nothing about the drops. *)
Lemma full_queue_drop_not_logged :
  PyQueue.full (text_queue Scenario.full_crawler) = true
  ∧ PyQueue.full (image_queue Scenario.full_crawler) = true
  ∧ 50 < word_count (extract_text Scenario.seed_soup).1
  ∧ ∃ c', crawl_url_dfs Scenario.world Scenario.seed 0 Scenario.full_crawler
          = Some c'
          ∧ text_queue c' = text_queue Scenario.full_crawler
          ∧ image_queue c' = image_queue Scenario.full_crawler
          ∧ is_Some (image_files c' !! "174a26869c07495555e40dae6397c1cf")
          ∧ log c' = [LogCrawling Scenario.seed 0]
          ∧ ¬ ∃ e, e ∈ log c' ∧ level e = WARNING.
Proof.
  split_and!; [vm_compute; reflexivity..|].
  eexists. split; [vm_compute; reflexivity|].
  split_and!.
  - vm_compute. reflexivity.
  - vm_compute. reflexivity.
  - vm_compute. by eexists.
  - vm_compute. reflexivity.
  - intros (e & He & Hw). vm_compute in He.
    apply list_elem_of_singleton in He. by subst e.
Qed.

(** ** Origin error statistics *)

Section ErrorStats.
Context (w : World).


(** The state in which the cache is looked up: the URL is claimed, the
    claim is saved and announced. *)
Lemma crawl_url_dfs_unfold url depth c :
  crawl_url_dfs w url depth c =
  if negb (is_running c) || (max_depth c <? depth)
     || bool_decide (url ∈ visited c)
  then Some c
  else
    let c0 := logging (LogCrawling url depth)
                (save_visited_url url (with_visited ({[url]} ∪ visited c) c)) in
    if cache_hit url c
    then process_cached_content w url
           (default "" ((get_cached_page url c0).1)) depth (bump_cached_hits c0)
    else fetch_page w url (netloc (urlparse w url)) depth
           (get_cached_page url c0).2.
Proof.
  unfold crawl_url_dfs.
  destruct (negb (is_running c) || (max_depth c <? depth)) eqn:Hguard;
    cbn [orb]; [done|].
  destruct (bool_decide (url ∈ visited c)); [done|].
  cbn zeta. unfold cache_hit, get_cached_page. cbn [pages clock logging
    save_visited_url with_visited with_visited_urls with_log].
  destruct (pages c !! url) as [[content last_crawled]|]; [|done].
  destruct (clock c - last_crawled <? hours_24); cbn [andb fst snd]; [|done].
  by destruct (Py.truthy content).
Qed.

End ErrorStats.



(** ** A page found in the cache *)

Lemma truthy_true (s : string) : Py.truthy s = true ↔ s ≠ "".
Proof. by destruct s. Qed.

(** C1, as the code has it: when the cache holds fresh, non-empty HTML for
    a URL the task may crawl, the task claims the URL, parses the cached
    document, puts its text on the queue when the text has more than 50
    words and the queue has room, and returns.  It schedules no task, so no
    link of the cached page; it touches neither the image queue nor the
    image files; and it makes no request: no sleep, no change to the page
    table or to the origin statistics. *)
Theorem cache_hit_emits_text_only (w : World) (url : string) (depth : Z)
    (c : Crawler) (content : string) (last_crawled : Z) :
  is_running c = true →
  depth ≤ max_depth c →
  url ∉ visited c →
  pages c !! url = Some (content, last_crawled) →
  clock c - last_crawled < hours_24 →
  content ≠ "" →
  ∃ c', crawl_url_dfs w url depth c = Some c'
        ∧ visited c' = {[url]} ∪ visited c
        ∧ text_queue c'
          = (let text := (extract_text (parse_html w content)).1 in
             if Py.truthy text && (50 <? word_count text)
                && negb (PyQueue.full (text_queue c))
             then PyQueue.append (text_queue c)
                    {| tr_url := url; tr_text := text; tr_depth := depth |}
             else text_queue c)
        ∧ tasks c' = tasks c
        ∧ image_queue c' = image_queue c
        ∧ image_files c' = image_files c
        ∧ sleeps c' = sleeps c
        ∧ pages c' = pages c
        ∧ domain_stats c' = domain_stats c.
Proof.
  intros Hrun Hdepth Hnew Hrow Hfresh Hcontent.
  rewrite crawl_url_dfs_unfold, Hrun. cbn [negb orb].
  destruct (Z.ltb_spec (max_depth c) depth); [lia|]. cbn [orb].
  rewrite bool_decide_eq_false_2 by done. cbn zeta.
  assert (cache_hit url c = true) as ->.
  { unfold cache_hit. rewrite Hrow.
    destruct (Z.ltb_spec (clock c - last_crawled) hours_24); [|lia].
    by apply truthy_true. }
  unfold get_cached_page. cbn [pages clock logging save_visited_url
    with_visited with_visited_urls with_log]. rewrite Hrow.
  destruct (Z.ltb_spec (clock c - last_crawled) hours_24); [|lia].
  cbn [fst default]. unfold process_cached_content, id.
  destruct (extract_text (parse_html w content)) as [text soup].
  rewrite emit_text_eq. eexists. split; [done|].
  cbn [fst text_queue bump_cached_hits with_metrics logging with_log
       save_visited_url with_visited_urls with_visited].
  by destruct (Py.truthy text && (50 <? word_count text)
               && negb (PyQueue.full (text_queue c))).
Qed.

(** The seed's page was cached an hour ago. *)
Lemma cache_hit_emits_text_only_witness :
  ∃ c', crawl_url_dfs Scenario.world Scenario.seed 0 (Scenario.cached_crawler 3)
        = Some c'
        ∧ tasks c' = []
        ∧ PyQueue.items (text_queue c')
          = [{| tr_url := Scenario.seed; tr_text := Scenario.body_text;
                tr_depth := 0 |}].
Proof.
  destruct (cache_hit_emits_text_only Scenario.world Scenario.seed 0
              (Scenario.cached_crawler 3) Scenario.seed_html (-3600000000))
    as (c' & Hc' & _ & Htext & Htasks & _).
  - reflexivity.
  - vm_compute. discriminate.
  - set_solver.
  - vm_compute. reflexivity.
  - vm_compute. reflexivity.
  - vm_compute. discriminate.
  - exists c'. split; [done|]. split; [done|].
    rewrite Htext. vm_compute. reflexivity.
Defined.

(** C1 as the spec words it fails: the cached page of the seed has a link
    that [extract_links] returns, depth 1 is within the limit and there is
    room for tasks, yet the task that finds the page in the cache
    schedules nothing; the task that fetches the same page schedules the
    link at depth 1. *)
Lemma cache_hit_schedules_no_link :
  cache_hit Scenario.seed (Scenario.cached_crawler 3) = true
  ∧ extract_links Scenario.world (extract_text Scenario.seed_soup).2
      Scenario.seed (Scenario.cached_crawler 3) = Some [Scenario.leaf]
  ∧ 0 + 1 ≤ max_depth (Scenario.cached_crawler 3)
  ∧ len_tasks (Scenario.cached_crawler 3)
    < max_concurrent (Scenario.cached_crawler 3)
  ∧ (∃ c', crawl_url_dfs Scenario.world Scenario.seed 0
             (Scenario.cached_crawler 3) = Some c'
           ∧ tasks c' = [])
  ∧ (∃ c', crawl_url_dfs Scenario.world Scenario.seed 0
             (Scenario.new_crawler 3 8000 4000) = Some c'
           ∧ tasks c' = [{| task_url := Scenario.leaf; task_depth := 1 |}]).
Proof.
  split_and!.
  - vm_compute. reflexivity.
  - vm_compute. reflexivity.
  - vm_compute. discriminate.
  - vm_compute. reflexivity.
  - eexists. split; vm_compute; reflexivity.
  - eexists. split; vm_compute; reflexivity.
Qed.

(** ** Link extraction *)

(** [extract_links] raises exactly when [urljoin] raises on the non-empty
    [href] of one of the anchors. *)
Lemma links_of_raises (w : World) anchors base_url seen :
  links_of w anchors base_url seen = None
  ↔ ∃ a href,
      a ∈ anchors ∧ Bs4.get "href" a = Some href ∧ href ≠ ""
      ∧ urljoin w base_url href = None.
Proof.
  induction anchors as [|a rest IH]; cbn [links_of].
  { split; [done|]. by intros (? & ? & ?%elem_of_nil & _). }
  assert ((∃ a0 href, a0 ∈ a :: rest ∧ Bs4.get "href" a0 = Some href
             ∧ href ≠ "" ∧ urljoin w base_url href = None)
          ↔ (∃ href, Bs4.get "href" a = Some href ∧ href ≠ ""
               ∧ urljoin w base_url href = None)
            ∨ links_of w rest base_url seen = None) as ->.
  { rewrite IH. split.
    - intros (a0 & href & [->|Hin]%elem_of_cons & H); [left|right]; eauto.
    - intros [(href & H)|(a0 & href & Hin & H)].
      + exists a, href. split; [left|done].
      + exists a0, href. split; [by right|done]. }
  destruct (Bs4.get "href" a) as [href|].
  2:{ split; [by right|]. by intros [(? & ? & _)|]. }
  destruct (Py.truthy href) eqn:Htruthy.
  2:{ split; [by right|]. intros [(? & [= <-] & Hne & _)|]; [|done].
      apply truthy_true in Hne. congruence. }
  apply truthy_true in Htruthy.
  destruct (urljoin w base_url href) as [full_url|] eqn:Hjoin;
    cbn [mbind option_bind].
  2:{ split; [|done]. intros _. left. by exists href. }
  assert ((if is_valid_url w full_url && should_crawl_url w full_url
              && negb (bool_decide (full_url ∈ seen))
           then links ← links_of w rest base_url seen; Some (full_url :: links)
           else links_of w rest base_url seen) = None
          ↔ links_of w rest base_url seen = None) as ->.
  { destruct (_ && _ && _); [|done].
    by destruct (links_of w rest base_url seen). }
  split; [by right|]. intros [(? & [= <-] & _ & ?)|]; [congruence|done].
Qed.

(** When it returns, [extract_links] returns the joins that pass the three
    tests. *)
Lemma links_of_spec (w : World) anchors base_url seen links link :
  links_of w anchors base_url seen = Some links →
  link ∈ links
  ↔ ∃ a href,
      a ∈ anchors ∧ Bs4.get "href" a = Some href ∧ href ≠ ""
      ∧ urljoin w base_url href = Some link
      ∧ is_valid_url w link = true ∧ should_crawl_url w link = true
      ∧ link ∉ seen.
Proof.
  revert links. induction anchors as [|a rest IH]; intros links;
    cbn [links_of].
  { intros [= <-]. split; [by intros ?%elem_of_nil|].
    by intros (? & ? & ?%elem_of_nil & _). }
  assert ((∃ a0 href, a0 ∈ a :: rest ∧ Bs4.get "href" a0 = Some href
             ∧ href ≠ "" ∧ urljoin w base_url href = Some link
             ∧ is_valid_url w link = true ∧ should_crawl_url w link = true
             ∧ link ∉ seen)
          ↔ (∃ href, Bs4.get "href" a = Some href ∧ href ≠ ""
               ∧ urljoin w base_url href = Some link
               ∧ is_valid_url w link = true ∧ should_crawl_url w link = true
               ∧ link ∉ seen)
            ∨ (∃ a0 href, a0 ∈ rest ∧ Bs4.get "href" a0 = Some href
                 ∧ href ≠ "" ∧ urljoin w base_url href = Some link
                 ∧ is_valid_url w link = true ∧ should_crawl_url w link = true
                 ∧ link ∉ seen)) as ->.
  { split.
    - intros (a0 & href & [->|Hin]%elem_of_cons & H); [left|right]; eauto.
    - intros [(href & H)|(a0 & href & Hin & H)].
      + exists a, href. split; [left|done].
      + exists a0, href. split; [by right|done]. }
  destruct (Bs4.get "href" a) as [href|].
  2:{ intros Hrest. rewrite (IH _ Hrest).
      split; [by right|]. by intros [(? & ? & _)|]. }
  destruct (Py.truthy href) eqn:Htruthy.
  2:{ intros Hrest. rewrite (IH _ Hrest).
      split; [by right|]. intros [(? & [= <-] & Hne & _)|]; [|done].
      apply truthy_true in Hne. congruence. }
  apply truthy_true in Htruthy.
  destruct (urljoin w base_url href) as [full_url|] eqn:Hjoin;
    cbn [mbind option_bind]; [|done].
  destruct (is_valid_url w full_url) eqn:Hvalid; cbn [andb].
  2:{ intros Hrest. rewrite (IH _ Hrest). split; [by right|].
      intros [(? & [= <-] & _ & Hj & ? & _)|]; [|done].
      rewrite Hjoin in Hj. injection Hj as <-. congruence. }
  destruct (should_crawl_url w full_url) eqn:Hshould; cbn [andb].
  2:{ intros Hrest. rewrite (IH _ Hrest). split; [by right|].
      intros [(? & [= <-] & _ & Hj & _ & ? & _)|]; [|done].
      rewrite Hjoin in Hj. injection Hj as <-. congruence. }
  case_bool_decide as Hseen; cbn [negb].
  { intros Hrest. rewrite (IH _ Hrest). split; [by right|].
    intros [(? & [= <-] & _ & Hj & _ & _ & ?)|]; [|done].
    rewrite Hjoin in Hj. by injection Hj as <-. }
  destruct (links_of w rest base_url seen) as [links'|]; cbn; [|done].
  intros [= <-]. rewrite elem_of_cons, (IH _ eq_refl). split.
  - intros [->|Hin]; [left|by right]. by exists href.
  - intros [(? & [= <-] & _ & Hj & _)|Hin]; [left|by right].
    rewrite Hjoin in Hj. by injection Hj as <-.
Qed.

(** C3, as the code has it.  [extract_links] gives no list at all exactly
    when [urljoin] raises on the non-empty [href] of some anchor of the
    document.  When it returns, a URL is in its list exactly when some
    anchor of the document has a non-empty [href] whose join with the base
    URL is that URL, [is_valid_url] accepts it, it passes
    [should_crawl_url], and it is not yet visited.  [should_crawl_url]
    passes exactly the URLs whose netloc contains none of the six skipped
    domains.  Whether the URL names a picture or a video platform plays no
    part. *)
Theorem extract_links_characterised (w : World) (soup : Soup)
    (base_url : string) (c : Crawler) :
  (extract_links w soup base_url c = None
   ↔ ∃ a href,
       a ∈ Bs4.find_all ["a"] soup
       ∧ Bs4.get "href" a = Some href ∧ href ≠ ""
       ∧ urljoin w base_url href = None)
  ∧ (∀ links,
       extract_links w soup base_url c = Some links →
       ∀ link,
         link ∈ links
         ↔ ∃ a href,
             a ∈ Bs4.find_all ["a"] soup
             ∧ Bs4.get "href" a = Some href ∧ href ≠ ""
             ∧ urljoin w base_url href = Some link
             ∧ is_valid_url w link = true ∧ should_crawl_url w link = true
             ∧ link ∉ visited c)
  ∧ (∀ link,
       should_crawl_url w link = true
       ↔ ∀ domain,
           domain ∈ ["facebook.com"; "twitter.com"; "instagram.com"; "ads.";
                     "analytics."; "tracker."] →
           Py.contains domain (netloc (urlparse w link)) = false).
Proof.
  split; [apply links_of_raises|].
  split; [intros links Hlinks link; by apply links_of_spec|].
  intros link.
  unfold should_crawl_url, Py.any, skip_domains. cbn zeta.
  rewrite negb_true_iff. split.
  - intros Hnone domain Hin.
    destruct (Py.contains domain (netloc (urlparse w link))) eqn:Hc; [|done].
    assert (existsb (λ d, Py.contains d (netloc (urlparse w link)))
              ["facebook.com"; "twitter.com"; "instagram.com"; "ads.";
               "analytics."; "tracker."] = true) as Hex.
    { apply existsb_exists. exists domain. split; [|done].
      by apply list_elem_of_In. }
    congruence.
  - intros Hall.
    destruct (existsb _ _) eqn:Hex; [|done].
    apply existsb_exists in Hex as (domain & Hin%list_elem_of_In & Hc).
    rewrite (Hall domain Hin) in Hc. done.
Qed.

(** The anchor of the seed's page. *)
Lemma extract_links_characterised_witness :
  ∃ links,
    extract_links Scenario.world Scenario.seed_soup Scenario.seed
      (Scenario.new_crawler 3 8000 4000) = Some links
    ∧ Scenario.leaf ∈ links.
Proof.
  assert (∃ links,
            extract_links Scenario.world Scenario.seed_soup Scenario.seed
              (Scenario.new_crawler 3 8000 4000) = Some links)
    as [links Hlinks] by (eexists; vm_compute; reflexivity).
  exists links. split; [done|].
  apply (proj1 (proj2 (extract_links_characterised Scenario.world
                         Scenario.seed_soup Scenario.seed
                         (Scenario.new_crawler 3 8000 4000)))
           links Hlinks Scenario.leaf).
  exists (Elem "a" [("href", Scenario.leaf)] [Text "next"]), Scenario.leaf.
  split_and!.
  - cbn. apply list_elem_of_here.
  - reflexivity.
  - discriminate.
  - vm_compute. reflexivity.
  - vm_compute. reflexivity.
  - vm_compute. reflexivity.
  - set_solver.
Defined.

(** C3 as the spec words it fails: the anchors to a picture and to a video
    platform are returned as links to crawl. *)
Lemma image_and_video_links_returned :
  is_valid_image_url "http://img.test/photo.JPG" = true
  ∧ is_valid_video_url "https://www.youtube.com/watch?v=1" = true
  ∧ ∃ links,
      extract_links Scenario.world Scenario.links_soup Scenario.seed
        (Scenario.new_crawler 3 8000 4000) = Some links
      ∧ "http://img.test/photo.JPG" ∈ links
      ∧ "https://www.youtube.com/watch?v=1" ∈ links.
Proof.
  split_and!; [vm_compute; reflexivity..|].
  eexists. split; [vm_compute; reflexivity|]. split.
  - apply (bool_decide_unpack _). vm_compute. exact I.
  - apply (bool_decide_unpack _). vm_compute. exact I.
Qed.

(** A reference that urllib refuses: [is_valid_url] answers [False] on it,
    and the page whose navigation bar holds it gives no link at all as it
    was parsed, though the same page gives its other link once
    [extract_text] has removed the bar. *)
Lemma malformed_href_gives_no_link :
  is_valid_url Scenario.world "http://[::1" = false
  ∧ extract_links Scenario.world Scenario.broken_soup Scenario.seed
      (Scenario.new_crawler 3 8000 4000) = None
  ∧ extract_links Scenario.world (extract_text Scenario.broken_soup).2
      Scenario.seed (Scenario.new_crawler 3 8000 4000)
    = Some [Scenario.leaf].
Proof.
  split_and!; vm_compute; reflexivity.
Qed.

(** ** What stands for normalization *)

(** C8, as the code has it: there is no normalization of its own.  A URL is
    accepted by [is_valid_url] exactly when [urlparse] returns on it and
    gives it a scheme and a netloc, whatever the scheme; and every link
    that [extract_links] returns is the string [urljoin] made of the base
    URL and the non-empty [href] of an anchor of the document, kept as it
    is, which [urlparse] gives a scheme and a netloc. *)
Theorem links_are_joined_and_valid (w : World) :
  (∀ url, is_valid_url w url = true
          ↔ urlparse_raises w url = false
            ∧ scheme (urlparse w url) ≠ "" ∧ netloc (urlparse w url) ≠ "")
  ∧ (∀ soup base_url c links link,
       extract_links w soup base_url c = Some links →
       link ∈ links →
       ∃ a href,
         a ∈ Bs4.find_all ["a"] soup
         ∧ Bs4.get "href" a = Some href ∧ href ≠ ""
         ∧ urljoin w base_url href = Some link
         ∧ urlparse_raises w link = false
         ∧ scheme (urlparse w link) ≠ ""
         ∧ netloc (urlparse w link) ≠ "").
Proof.
  assert (∀ url, is_valid_url w url = true
                 ↔ urlparse_raises w url = false
                   ∧ scheme (urlparse w url) ≠ ""
                   ∧ netloc (urlparse w url) ≠ "")
    as Hvalid.
  { intros url. unfold is_valid_url. cbn zeta.
    destruct (urlparse_raises w url).
    - split; [done|]. by intros [? _].
    - rewrite andb_true_iff, !truthy_true. tauto. }
  split; [done|].
  intros soup base_url c links link Hlinks Hin.
  apply (links_of_spec w _ _ _ _ link Hlinks) in Hin
    as (a & href & Ha & Hhref & Hne & Hjoin & Hv & _).
  exists a, href. apply Hvalid in Hv. by destruct Hv as (? & ? & ?).
Qed.

(** The example page: the link to the file server is returned. *)
Lemma links_are_joined_and_valid_witness :
  ∃ a href,
    a ∈ Bs4.find_all ["a"] Scenario.links_soup
    ∧ Bs4.get "href" a = Some href ∧ href ≠ ""
    ∧ urljoin Scenario.world Scenario.seed href = Some "FTP://Files.Test/a#Top"
    ∧ urlparse_raises Scenario.world "FTP://Files.Test/a#Top" = false
    ∧ scheme (urlparse Scenario.world "FTP://Files.Test/a#Top") ≠ ""
    ∧ netloc (urlparse Scenario.world "FTP://Files.Test/a#Top") ≠ "".
Proof.
  assert (∃ links,
            extract_links Scenario.world Scenario.links_soup Scenario.seed
              (Scenario.new_crawler 3 8000 4000) = Some links
            ∧ "FTP://Files.Test/a#Top" ∈ links) as (links & Hlinks & Hin).
  { eexists. split; [vm_compute; reflexivity|].
    apply (bool_decide_unpack _). vm_compute. exact I. }
  exact (proj2 (links_are_joined_and_valid Scenario.world) Scenario.links_soup
           Scenario.seed (Scenario.new_crawler 3 8000 4000) links
           "FTP://Files.Test/a#Top" Hlinks Hin).
Defined.

(** C8 as the spec words it fails: the anchor to [FTP://Files.Test/a#Top]
    comes back as written, with a scheme that is neither http nor https,
    its scheme and host in upper case and its fragment in place; the mail
    address, which has no host, is the only one rejected. *)
Lemma ftp_link_not_normalized :
  extract_links Scenario.world Scenario.links_soup Scenario.seed
    (Scenario.new_crawler 3 8000 4000)
  = Some ["http://img.test/photo.JPG"; "https://www.youtube.com/watch?v=1";
          "FTP://Files.Test/a#Top"]
  ∧ scheme (urlparse Scenario.world "FTP://Files.Test/a#Top") = "ftp"
  ∧ netloc (urlparse Scenario.world "FTP://Files.Test/a#Top") = "Files.Test"
  ∧ Py.contains "#" "FTP://Files.Test/a#Top" = true
  ∧ Py.lower "FTP://Files.Test/a#Top" ≠ "FTP://Files.Test/a#Top".
Proof.
  split_and!; [vm_compute; reflexivity..|]. vm_compute. discriminate.
Qed.

(** ** Depth and the rescan of cached pages *)

(** C9, on the code: with [max_depth = 0], an empty cache and the one seed
    whose page has one anchor and one picture, the run ends, and it ends
    with the anchor's target visited, fetched and cached as well.  The
    seed's task schedules no link (its depth is not below the limit); the
    rescan of the loop finds the link in the seed's cached page and starts
    a task for it at depth 0. *)
Theorem depth_zero_run_visits_linked_page :
  ∃ c1 c',
    crawl_url_dfs Scenario.world Scenario.seed 0 (Scenario.new_crawler 0 8000 4000)
    = Some c1
    ∧ tasks c1 = []
    ∧ tasks (rescan Scenario.world c1)
      = [{| task_url := Scenario.leaf; task_depth := 0 |}]
    ∧ run_crawler Scenario.world 5 [Scenario.seed]
        (Scenario.new_crawler 0 8000 4000) = Some c'
    ∧ tasks c' = []
    ∧ elements (visited c') = [Scenario.seed; Scenario.leaf]
    ∧ visited c' ≠ {[Scenario.seed]}
    ∧ pages_crawled (metrics c') = 2
    ∧ is_Some (pages c' !! Scenario.leaf).
Proof.
  eexists _, _. split_and!.
  - vm_compute. reflexivity.
  - vm_compute. reflexivity.
  - vm_compute. reflexivity.
  - vm_compute. reflexivity.
  - vm_compute. reflexivity.
  - vm_compute. reflexivity.
  - intros Heq.
    assert (Scenario.leaf ∈ ({[Scenario.seed]} : gset string)) as Hin.
    { rewrite <- Heq. apply (bool_decide_unpack _). vm_compute. exact I. }
    apply elem_of_singleton in Hin. discriminate.
  - vm_compute. reflexivity.
  - vm_compute. by eexists.
Qed.

(** C10: whatever the crawler and the world, every task the rescan adds
    has depth 0, and a task of depth 0 returns having appended to the two
    queues only records of depth 0.  In the example the limit is 0 and the
    page [leaf] is one hop from the seed (the seed's page links to it and
    it is no seed): the rescan starts its task all the same, the task
    passes the depth test, and the run ends with [leaf] visited and
    fetched and with its text on the queue under depth 0. *)
Theorem rescan_tasks_start_at_depth_zero :
  (∀ w c, ∃ new, tasks (rescan w c) = tasks c ++ new
                 ∧ Forall (λ t, task_depth t = 0) new)
  ∧ (∀ w url c,
       ∃ c', crawl_url_dfs w url 0 c = Some c'
             ∧ (∃ new, PyQueue.items (text_queue c')
                       = PyQueue.items (text_queue c) ++ new
                       ∧ Forall (λ r, tr_depth r = 0) new)
             ∧ (∃ new, PyQueue.items (image_queue c')
                       = PyQueue.items (image_queue c) ++ new
                       ∧ Forall (λ r, ir_depth r = 0) new))
  ∧ (max_depth (Scenario.new_crawler 0 8000 4000) = 0
     ∧ extract_links Scenario.world Scenario.seed_soup Scenario.seed
         (Scenario.new_crawler 0 8000 4000) = Some [Scenario.leaf]
     ∧ ∃ c', run_crawler Scenario.world 5 [Scenario.seed]
               (Scenario.new_crawler 0 8000 4000) = Some c'
             ∧ Scenario.leaf ∈ visited c'
             ∧ pages c' !! Scenario.leaf = Some (Scenario.leaf_html, 0)
             ∧ map (λ r, (tr_url r, tr_depth r)) (PyQueue.items (text_queue c'))
               = [(Scenario.seed, 0); (Scenario.leaf, 0)]).
Proof.
  split_and!.
  - intros w c. destruct (rescan_eq w c) as (m & new & -> & Hnew).
    by exists new.
  - intros w url c.
    destruct (crawl_url_dfs_step w url 0 c) as (c' & Hc' & Hstep).
    exists c'. split; [done|]. split.
    + destruct (ts_text_items _ _ _ _ Hstep) as (new & E & F).
      exists new. split; [done|].
      eapply Forall_impl; [exact F|]. by intros r [_ ?].
    + apply (ts_image_items _ _ _ _ Hstep).
  - reflexivity.
  - vm_compute. reflexivity.
  - eexists. split; [vm_compute; reflexivity|]. split_and!.
    + apply (bool_decide_unpack _). vm_compute. exact I.
    + vm_compute. reflexivity.
    + vm_compute. reflexivity.
Qed.

(** * Further properties *)

(** ** The image loop, continued *)

Lemma images_more_refl c : images_more c c.
Proof. by split. Qed.

Lemma images_more_trans c1 c2 c3 :
  images_more c1 c2 → images_more c2 c3 → images_more c1 c3.
Proof.
  intros [] []. split; try congruence; try lia; try tauto.
  by etrans.
Qed.

Lemma within_capacity_append {A} (q : PyQueue.t A) (x : A) :
  PyQueue.full q = false → within_capacity q →
  within_capacity (PyQueue.append q x).
Proof.
  unfold within_capacity, PyQueue.full, PyQueue.append, PyQueue.qsize.
  cbn. intros Hfull Hcap Hpos. rewrite length_app. cbn.
  destruct (Z.ltb_spec 0 (PyQueue.maxsize q)); [|lia].
  destruct (Z.leb_spec (PyQueue.maxsize q) (Z.of_nat (length (PyQueue.items q))));
    [done|lia].
Qed.

Section ImagesMore.
Context (w : World).

Lemma process_image_more img_url c :
  images_more c (process_image w img_url c).2.
Proof.
  unfold process_image.
  destruct (image_files c !! md5_hexdigest w img_url) eqn:Hfile.
  { split; cbn; try done. lia. }
  destruct (image_get w img_url) as [|status [image|]];
    try destruct (status =? 200); cbn [snd];
    split; cbn; try done; try lia.
  by apply insert_subseteq.
Qed.

Lemma process_images_from_more imgs base_url depth c r :
  process_images_from w imgs base_url depth c = Some r →
  images_more c (after r).
Proof.
  revert c. induction imgs as [|img rest IH]; intros c;
    cbn [process_images_from].
  { intros [= <-]. apply images_more_refl. }
  destruct (is_running c); cbn [negb];
    [|intros [= <-]; apply images_more_refl].
  destruct (Bs4.get "src" img) as [src|]; [|apply IH].
  destruct (Py.truthy src && is_valid_image_url src); [|apply IH].
  destruct (urljoin w base_url src) as [img_url|];
    [|intros [= <-]; apply images_more_refl].
  pose proof (process_image_more img_url c) as Hs.
  pose proof (process_image_log w img_url c) as [Hq _].
  destruct (process_image w img_url c) as [[image|] c1];
    cbn [fst snd] in *.
  - destruct (PyQueue.full (image_queue c1)) eqn:Hfull; cbn [negb].
    + cbn [mbind option_bind]. intros H%IH. by eapply images_more_trans.
    + rewrite put_not_full by done. cbn [mbind option_bind].
      intros H%IH. eapply images_more_trans; [|exact H].
      eapply images_more_trans; [exact Hs|].
      split; cbn; try done. by apply within_capacity_append.
  - cbn [mbind option_bind]. intros H%IH. by eapply images_more_trans.
Qed.

End ImagesMore.

(** ** Scheduling within the cap *)

Lemma len_tasks_create_task url depth c :
  len_tasks (create_task url depth c) = len_tasks c + 1.
Proof. unfold len_tasks, create_task. cbn. rewrite length_app. cbn. lia. Qed.

Lemma with_tasks_create_task url depth l c :
  with_tasks (tasks (create_task url depth c) ++ l) (create_task url depth c)
  = with_tasks
      (tasks c ++ {| task_url := url; task_depth := depth |} :: l) c.
Proof. unfold create_task. cbn. by rewrite <- app_assoc. Qed.

(** The seeds that get a task are the first ones, as many as fit under the
    cap. *)
Lemma create_initial_tasks_exact seed_urls c :
  create_initial_tasks seed_urls c
  = with_tasks
      (tasks c
       ++ map (λ url, {| task_url := url; task_depth := 0 |})
            (take (Z.to_nat (max_concurrent c - len_tasks c)) seed_urls)) c.
Proof.
  revert c. induction seed_urls as [|url rest IH]; intros c;
    cbn [create_initial_tasks].
  { by rewrite take_nil, app_nil_r, with_tasks_same. }
  destruct (Z.ltb_spec (len_tasks c) (max_concurrent c)) as [Hroom|Hfull].
  - rewrite IH, with_tasks_create_task, len_tasks_create_task.
    change (max_concurrent (create_task url 0 c)) with (max_concurrent c).
    replace (Z.to_nat (max_concurrent c - len_tasks c))
      with (S (Z.to_nat (max_concurrent c - (len_tasks c + 1)))) by lia.
    done.
  - rewrite IH.
    replace (Z.to_nat (max_concurrent c - len_tasks c)) with 0%nat by lia.
    done.
Qed.

Lemma schedule_links_exact links depth c :
  schedule_links links depth c
  = with_tasks
      (tasks c
       ++ map (λ link, {| task_url := link; task_depth := depth + 1 |})
            (take (if is_running c
                   then Z.to_nat (max_concurrent c - len_tasks c)
                   else 0%nat) links)) c.
Proof.
  revert c. induction links as [|link rest IH]; intros c;
    cbn [schedule_links].
  { by rewrite take_nil, app_nil_r, with_tasks_same. }
  destruct (is_running c) eqn:Hrun; rewrite ?andb_false_r, ?andb_true_r.
  2:{ by rewrite IH, Hrun. }
  destruct (Z.ltb_spec (len_tasks c) (max_concurrent c)) as [Hroom|Hfull].
  - rewrite IH, with_tasks_create_task, len_tasks_create_task.
    change (max_concurrent (create_task link (depth + 1) c))
      with (max_concurrent c).
    change (is_running (create_task link (depth + 1) c)) with (is_running c).
    rewrite Hrun.
    replace (Z.to_nat (max_concurrent c - len_tasks c))
      with (S (Z.to_nat (max_concurrent c - (len_tasks c + 1)))) by lia.
    done.
  - rewrite IH, Hrun.
    replace (Z.to_nat (max_concurrent c - len_tasks c)) with 0%nat by lia.
    done.
Qed.

Lemma len_tasks_with_tasks_take {A} (f : A → Task) (n : nat) (l : list A) c :
  len_tasks (with_tasks (tasks c ++ map f (take n l)) c)
  ≤ len_tasks c + Z.of_nat n.
Proof.
  unfold len_tasks. cbn. rewrite length_app, length_map, length_take. lia.
Qed.

Lemma schedule_links_bounded links depth c :
  tasks_bounded c (schedule_links links depth c).
Proof.
  unfold tasks_bounded. rewrite schedule_links_exact.
  etrans; [apply len_tasks_with_tasks_take|].
  destruct (is_running c); lia.
Qed.

Lemma create_initial_tasks_bounded seed_urls c :
  tasks_bounded c (create_initial_tasks seed_urls c).
Proof.
  unfold tasks_bounded. rewrite create_initial_tasks_exact.
  etrans; [apply len_tasks_with_tasks_take|]. lia.
Qed.

Lemma elem_of_take_elem {A} (x : A) (n : nat) (l : list A) :
  x ∈ take n l → x ∈ l.
Proof. intros (i & Hi & _)%elem_of_take. by eapply list_elem_of_lookup_2. Qed.

Section FetchedEffects.
Context (w : World).

Lemma process_fetched_effects url domain content depth c c' :
  process_fetched w url domain content depth c = Some c' →
  fetched_effects url domain content depth c c'.
Proof.
  unfold process_fetched.
  destruct (extract_text (parse_html w content)) as [text soup].
  rewrite emit_text_eq. cbn [mbind option_bind]. unfold process_images.
  match goal with
  | |- context [process_images_from w ?imgs url depth ?c1] =>
      destruct (process_images_from_step w imgs url depth c1)
        as (r & Hr & Hs);
      pose proof (process_images_from_more w imgs url depth c1 r Hr) as Hm;
      rewrite Hr
  end.
  cbn [mbind option_bind].
  intros Hc'.
  assert (∃ new said,
            c' = with_log (log (after r) ++ said)
                   (with_tasks (tasks (after r) ++ new) (after r))
            ∧ len_tasks (with_tasks (tasks (after r) ++ new) (after r))
              ≤ Z.max (len_tasks (after r)) (max_concurrent (after r))
            ∧ Forall (λ t, task_depth t = depth + 1
                           ∧ task_depth t ≤ max_depth (after r)
                           ∧ task_url t ∉ visited (after r)) new)
    as (new & said & -> & Hbound & Hnew).
  { assert (∀ c2 said,
              ∃ new said',
                with_log (log c2 ++ said) c2
                = with_log (log c2 ++ said') (with_tasks (tasks c2 ++ new) c2)
                ∧ len_tasks (with_tasks (tasks c2 ++ new) c2)
                  ≤ Z.max (len_tasks c2) (max_concurrent c2)
                ∧ Forall (λ t, task_depth t = depth + 1
                               ∧ task_depth t ≤ max_depth c2
                               ∧ task_url t ∉ visited c2) new) as Hquiet.
    { intros c2 said'. exists [], said'. split_and!; [|  |done].
      - by rewrite app_nil_r, with_tasks_same.
      - rewrite app_nil_r, with_tasks_same. lia. }
    destruct r as [c2|c2]; cbn [after] in *.
    - destruct (Z.ltb_spec depth (max_depth c2)).
      + destruct (extract_links w soup url c2) as [links|] eqn:Hlinks;
          injection Hc' as <-; [|apply Hquiet].
        rewrite schedule_links_exact. eexists _, []. split_and!.
        * by rewrite app_nil_r.
        * rewrite <- schedule_links_exact. apply schedule_links_bounded.
        * apply Forall_forall.
          intros t (l & -> & Hl%elem_of_take_elem)%list_elem_of_fmap.
          cbn. split_and!; [done|lia|].
          by apply (links_of_spec w _ _ _ _ l Hlinks) in Hl
            as (? & ? & _ & _ & _ & _ & _ & _ & Hl).
      + injection Hc' as <-.
        destruct (Hquiet c2 []) as (new & said & Heq & ?).
        exists new, said. split; [|done].
        by rewrite <- Heq, app_nil_r, with_log_same.
    - injection Hc' as <-. apply Hquiet. }
  clear Hr. set (c2 := after r) in *. clearbody c2.
  match type of Hs with images_step _ (if ?b then _ else _) _ =>
    destruct b
  end.
  all: destruct Hs as [Hmd Hmc Hrun Hvis _ Hpages Hds _ Htasks _ _ _ _ _ _ _];
    destruct Hm as [Hpc Hbd Hsr Hch Hfiles Hcap];
    cbn in Hmd, Hmc, Hrun, Hvis, Hpages, Hds, Htasks, Hpc, Hbd, Hsr, Hch,
      Hfiles, Hcap.
  all: rewrite Hmd, Hvis in Hnew.
  all: assert (len_tasks (with_tasks (tasks c2 ++ new) c2)
               ≤ Z.max (len_tasks c) (max_concurrent c)) as Hbound'
         by (etrans; [exact Hbound|]; unfold len_tasks;
             rewrite Htasks, Hmc; lia).
  all: split; cbn; try done; try congruence.
  all: exists new; by rewrite Htasks.
Qed.

End FetchedEffects.

(** ** What a request leaves behind *)

Lemma tasks_bounded_same c c' :
  tasks c' = tasks c → tasks_bounded c c'.
Proof. unfold tasks_bounded, len_tasks. intros ->. lia. Qed.

Section FetchEffects.
Context (w : World).

Ltac quiet_effects :=
  split;
  try match goal with H : http_get _ _ = _ |- _ => rewrite H end;
  cbn [html_content feeds_error_stats];
  repeat match goal with
         | H : (_ =? _) = _ |- _ => rewrite H
         | H : Py.contains _ _ = _ |- _ => rewrite H
         end;
  cbn; try done; try lia; try (by apply tasks_bounded_same);
  try (exists []; by rewrite app_nil_r); try (by left).

Lemma fetch_page_effects url domain depth c c' :
  fetch_page w url domain depth c = Some c' →
  fetch_effects w url depth c c'.
Proof.
  unfold fetch_page.
  destruct (http_get w url) as [| |status content_type content] eqn:Hget.
  1,2: intros [= <-]; quiet_effects.
  destruct (status =? 200) eqn:Hstatus; cbn [negb];
    [|intros [= <-]; quiet_effects].
  destruct (Py.contains "text/html" (Py.lower (default "" content_type)))
    eqn:Hhtml; cbn [negb]; [|intros [= <-]; quiet_effects].
  intros Hc'.
  destruct (process_fetched_step w url domain content depth
              (sleep (get_adaptive_delay domain c) c)) as (c'' & Hc'' & Hp).
  rewrite Hc' in Hc''. injection Hc'' as <-.
  apply process_fetched_effects in Hc'.
  destruct Hp, Hc'. cbn in *.
  split; rewrite ?Hget; cbn [html_content feeds_error_stats];
    rewrite ?Hstatus, ?Hhtml; cbn [andb negb]; try done; try lia.
  match goal with H : text_queue c' = _ ∨ _ |- _ =>
    destruct H as [->|(text & _ & Hfull & ->)]; [done|]
  end.
  by apply within_capacity_append.
Qed.

End FetchEffects.

(** ** What a task leaves behind *)

Lemma guard_claims url depth c :
  negb (is_running c) || (max_depth c <? depth)
  || bool_decide (url ∈ visited c)
  = negb (claims url depth c).
Proof.
  unfold claims. rewrite (Z.ltb_antisym depth (max_depth c)).
  by destruct (is_running c), (depth <=? max_depth c),
    (bool_decide (url ∈ visited c)).
Qed.

Lemma reaches_fetch_claims url depth c :
  reaches_fetch url depth c = claims url depth c && negb (cache_hit url c).
Proof. reflexivity. Qed.

Section CrawlEffects.
Context (w : World).

Ltac quiet_crawl Hreach :=
  split; unfold fetched_content; rewrite ?Hreach; cbn; try done; try lia;
  try (intros; congruence); try (by apply tasks_bounded_same);
  try (exists []; by rewrite app_nil_r); try (by left).

Lemma crawl_url_dfs_effects url depth c c' :
  crawl_url_dfs w url depth c = Some c' → crawl_effects w url depth c c'.
Proof.
  rewrite crawl_url_dfs_unfold, guard_claims.
  assert (∀ P : Prop,
            (∀ b1 b2, claims url depth c = b1 → cache_hit url c = b2 →
                      reaches_fetch url depth c = b1 && negb b2 → P) → P)
    as Hcases.
  { intros P HP. by eapply HP. }
  apply Hcases. clear Hcases. intros claimed hit Hclaims Hhit Hreach.
  rewrite Hclaims, Hhit.
  destruct claimed; cbn [negb andb] in *;
    [|intros [= <-]; quiet_crawl Hreach].
  cbn zeta. destruct hit; cbn [negb] in *.
  - unfold process_cached_content.
    destruct (extract_text _) as [text soup]. rewrite emit_text_eq.
    intros [= <-].
    destruct (Py.truthy text && (50 <? word_count text)) eqn:Helig;
      cbn [andb]; [|quiet_crawl Hreach].
    apply andb_true_iff in Helig as [_ Hwords%Z.ltb_lt].
    destruct (PyQueue.full (text_queue _)) eqn:Hfull; cbn [negb];
      quiet_crawl Hreach.
    + intros Hcap. by apply (within_capacity_append (text_queue c)).
    + right. by exists text.
  - match goal with |- fetch_page _ _ _ _ ?c1 = _ → _ =>
      assert (visited c1 = {[url]} ∪ visited c
              ∧ visited_urls c1 = <[url := clock c]> (visited_urls c)
              ∧ pages c1 = pages c ∧ clock c1 = clock c
              ∧ max_depth c1 = max_depth c
              ∧ max_concurrent c1 = max_concurrent c
              ∧ tasks c1 = tasks c
              ∧ image_files c1 = image_files c
              ∧ image_queue c1 = image_queue c
              ∧ text_queue c1 = text_queue c
              ∧ pages_crawled (metrics c1) = pages_crawled (metrics c)
              ∧ successful_requests (metrics c1)
                = successful_requests (metrics c)
              ∧ failed_requests (metrics c1) = failed_requests (metrics c)
              ∧ bytes_downloaded (metrics c1) = bytes_downloaded (metrics c)
              ∧ cached_hits (metrics c) ≤ cached_hits (metrics c1))
        as (Hv & Hvu & Hp & Hcl & Hmd & Hmc & Ht & Hf & Hiq & Htq & Hpc & Hsr
            & Hfr & Hbd & Hch)
        by (unfold get_cached_page; repeat case_match; cbn;
            split_and!; try done; lia);
      generalize dependent c1
    end.
    intros c1 Hv Hvu Hp Hcl Hmd Hmc Ht Hf Hiq Htq Hpc Hsr Hfr Hbd Hch
      [Hv' ? Hpages ? ? ? ? ? ? ? ? Hb (new & Hnew & Fnew) Htext]%fetch_page_effects.
    split; unfold fetched_content; rewrite ?Hreach; cbn [andb];
      try congruence; try lia.
    + intros _. split; congruence.
    + by rewrite Hpages, Hp, Hcl.
    + by rewrite <- Hf.
    + by rewrite <- Hiq.
    + by rewrite <- Htq.
    + unfold tasks_bounded, len_tasks in *. by rewrite Ht, Hmc in Hb.
    + exists new. split; [congruence|]. by rewrite Hv', <- Hmd.
    + by rewrite <- Htq.
Qed.

End CrawlEffects.

(** ** What a run keeps *)

Lemma run_effects_refl c : run_effects c c.
Proof. split; try done; unfold metrics_le; lia. Qed.

Lemma run_effects_trans c1 c2 c3 :
  run_effects c1 c2 → run_effects c2 c3 → run_effects c1 c3.
Proof.
  intros [] []. split; try congruence; try tauto; try (by etrans);
    unfold metrics_le in *; lia.
Qed.

(** A step that touches the tasks, the log, the sleeps and the hit counter
    only. *)
Lemma run_effects_quiet c c' :
  max_depth c' = max_depth c → max_concurrent c' = max_concurrent c →
  is_running c' = is_running c → clock c' = clock c →
  visited c' = visited c → visited_urls c' = visited_urls c →
  pages c' = pages c → image_files c' = image_files c →
  text_queue c' = text_queue c → image_queue c' = image_queue c →
  pages_crawled (metrics c') = pages_crawled (metrics c) →
  bytes_downloaded (metrics c') = bytes_downloaded (metrics c) →
  successful_requests (metrics c') = successful_requests (metrics c) →
  failed_requests (metrics c') = failed_requests (metrics c) →
  cached_hits (metrics c) ≤ cached_hits (metrics c') →
  run_effects c c'.
Proof.
  intros ? ? ? ? Hv Hvu Hp Hf Htq Hiq ? ? ? ? ?.
  split; unfold visited_saved, pages_claimed, metrics_le;
    rewrite ?Hv, ?Hvu, ?Hp, ?Hf, ?Htq, ?Hiq; try done; lia.
Qed.

Section RunEffects.
Context (w : World).

Lemma insert_dom_grows {V} (m : gmap string V) (k : string) (v : V) :
  dom m ⊆ dom (<[k := v]> m).
Proof. rewrite dom_insert_L. set_solver. Qed.

Lemma crawl_url_dfs_run_effects url depth c c' :
  crawl_url_dfs w url depth c = Some c' → run_effects c c'.
Proof.
  intros Hc'.
  destruct (crawl_url_dfs_step w url depth c) as (c'' & Hc'' & Hstep).
  rewrite Hc' in Hc''. injection Hc'' as <-.
  apply crawl_url_dfs_effects in Hc'.
  assert (visited c ⊆ visited c'
          ∧ dom (visited_urls c) ⊆ dom (visited_urls c')
          ∧ (visited_saved c → visited_saved c')) as (Hv & Hvu & Hsaved).
  { destruct (claims url depth c) eqn:Hclaims.
    - destruct (ce_claim _ _ _ _ _ Hc' Hclaims) as [Ev Evu].
      unfold visited_saved. rewrite Ev, Evu, dom_insert_L.
      clear. set_solver.
    - by rewrite (ce_noop _ _ _ _ _ Hc' Hclaims). }
  split.
  - apply (ts_max_depth _ _ _ _ Hstep).
  - apply (ts_max_concurrent _ _ _ _ Hstep).
  - apply (ts_is_running _ _ _ _ Hstep).
  - apply (ts_clock _ _ _ _ Hstep).
  - done.
  - done.
  - done.
  - unfold pages_claimed. rewrite (ce_pages _ _ _ _ _ Hc').
    unfold fetched_content. rewrite reaches_fetch_claims.
    destruct (claims url depth c) eqn:Hclaims; cbn [andb].
    2:{ intros Hcl. by etrans. }
    destruct (ce_claim _ _ _ _ _ Hc' Hclaims) as [Ev _].
    destruct (if negb (cache_hit url c) then html_content (http_get w url)
              else None); [|intros Hcl; by etrans].
    rewrite dom_insert_L, Ev. clear. set_solver.
  - rewrite (ce_pages _ _ _ _ _ Hc').
    destruct (fetched_content w url depth c); [|done].
    apply insert_dom_grows.
  - apply (ce_files _ _ _ _ _ Hc').
  - pose proof (ce_pages_crawled _ _ _ _ _ Hc') as H1.
    pose proof (ce_successful_requests _ _ _ _ _ Hc') as H2.
    pose proof (ce_failed_requests _ _ _ _ _ Hc') as H3.
    pose proof (ce_bytes_downloaded _ _ _ _ _ Hc') as H4.
    pose proof (ce_cached_hits _ _ _ _ _ Hc') as H5.
    unfold metrics_le.
    destruct (fetched_content w url depth c),
      (reaches_fetch url depth c && feeds_error_stats (http_get w url)); lia.
  - pose proof (ce_pages_crawled _ _ _ _ _ Hc') as H1.
    pose proof (ce_successful_requests _ _ _ _ _ Hc') as H2.
    destruct (fetched_content w url depth c); lia.
  - apply (ce_text_capacity _ _ _ _ _ Hc').
  - apply (ce_image_capacity _ _ _ _ _ Hc').
Qed.

Lemma get_cached_page_quiet url c :
  run_effects c (get_cached_page url c).2
  ∧ tasks (get_cached_page url c).2 = tasks c.
Proof.
  unfold get_cached_page. repeat case_match; cbn [snd]; split; try done;
    try apply run_effects_refl.
  apply run_effects_quiet; cbn; try done; lia.
Qed.

Lemma collect_unvisited_quiet urls unvisited_urls c :
  run_effects c (collect_unvisited w urls unvisited_urls c).2
  ∧ tasks (collect_unvisited w urls unvisited_urls c).2 = tasks c.
Proof.
  revert unvisited_urls c.
  induction urls as [|visited_url rest IH]; intros unvisited_urls c;
    cbn [collect_unvisited].
  { split; [apply run_effects_refl|done]. }
  destruct (get_cached_page_quiet visited_url c) as [H1 Ht1].
  destruct (get_cached_page visited_url c) as [cached_content c1].
  cbn [snd] in H1, Ht1.
  assert (∀ acc, run_effects c (collect_unvisited w rest acc c1).2
                 ∧ tasks (collect_unvisited w rest acc c1).2 = tasks c)
    as Hrest.
  { intros acc. destruct (IH acc c1) as [H2 Ht2]. split.
    - by eapply run_effects_trans.
    - congruence. }
  destruct cached_content as [content|]; [|apply Hrest].
  destruct (Py.truthy content); [|apply Hrest].
  destruct (extract_links _ _ _ _); [apply Hrest|done].
Qed.

Lemma create_new_tasks_bounded unvisited_urls c :
  tasks_bounded c (create_new_tasks unvisited_urls c)
  ∧ ∃ new, create_new_tasks unvisited_urls c = with_tasks (tasks c ++ new) c
           ∧ Forall (λ t, task_url t ∉ visited c) new.
Proof.
  revert c. induction unvisited_urls as [|url rest IH]; intros c;
    cbn [create_new_tasks].
  { split; [by apply tasks_bounded_same|].
    exists []. by rewrite app_nil_r, with_tasks_same. }
  destruct (Z.leb_spec (max_concurrent c) (len_tasks c)) as [Hfull|Hroom].
  { split; [by apply tasks_bounded_same|].
    exists []. by rewrite app_nil_r, with_tasks_same. }
  destruct (negb (bool_decide (url ∈ visited c)) && is_running c) eqn:Hnew;
    [|apply IH].
  apply andb_true_iff in Hnew as [Hnew%negb_true_iff%bool_decide_eq_false _].
  destruct (IH (create_task url 0 c)) as (Hb & new & E & Fnew). split.
  - unfold tasks_bounded in *. rewrite len_tasks_create_task in Hb.
    change (max_concurrent (create_task url 0 c)) with (max_concurrent c) in Hb.
    lia.
  - rewrite E, with_tasks_create_task. eexists. split; [done|].
    by constructor.
Qed.

Lemma rescan_run_effects c :
  run_effects c (rescan w c) ∧ tasks_bounded c (rescan w c).
Proof.
  unfold rescan, rescan_ended.
  destruct ((len_tasks c <? max_concurrent c) && is_running c); cbn [after].
  2:{ split; [apply run_effects_refl|by apply tasks_bounded_same]. }
  destruct (collect_unvisited_quiet (elements (visited c)) [] c) as [H1 Ht1].
  destruct (collect_unvisited w (elements (visited c)) [] c)
    as [[unvisited_urls|] c1]; cbn [snd after] in *.
  2:{ split; [done|by apply tasks_bounded_same]. }
  destruct (create_new_tasks_bounded unvisited_urls c1) as (Hb & new & E & _).
  split.
  - eapply run_effects_trans; [exact H1|]. rewrite E.
    apply run_effects_quiet; cbn; try done; lia.
  - unfold tasks_bounded, len_tasks in *. rewrite Ht1 in Hb.
    by rewrite (re_max_concurrent _ _ H1) in Hb.
Qed.

Lemma round_end_run_effects c :
  run_effects c (log_progress (rescan w (with_tasks (tail (tasks c)) c))).
Proof.
  eapply run_effects_trans; [|eapply run_effects_trans].
  - apply (run_effects_quiet c (with_tasks (tail (tasks c)) c)); cbn;
      try done; lia.
  - apply rescan_run_effects.
  - destruct (log_progress_eq (rescan w (with_tasks (tail (tasks c)) c)))
      as (l & -> & _).
    apply run_effects_quiet; cbn; try done; lia.
Qed.

Lemma run_loop_run_effects fuel c c' :
  run_loop w fuel c = Some c' → run_effects c c'.
Proof.
  revert c. induction fuel as [|fuel IH]; intros c; cbn [run_loop].
  - destruct (tasks c); [|destruct (negb (is_running c))]; try done;
      intros [= <-]; apply run_effects_refl.
  - destruct (tasks c) as [|t rest] eqn:Ht.
    { intros [= <-]. apply run_effects_refl. }
    destruct (negb (is_running c)).
    { intros [= <-]. apply run_effects_refl. }
    destruct (crawl_url_dfs w (task_url t) (task_depth t) c) as [c1|] eqn:Hc1;
      [|done].
    cbn [mbind option_bind].
    destruct (rescan_ended_cases w (with_tasks (tail (tasks c1)) c1))
      as [-> | ->].
    + intros Hrun%IH.
      eapply run_effects_trans;
        [by eapply crawl_url_dfs_run_effects|].
      eapply run_effects_trans; [apply round_end_run_effects|done].
    + intros [= <-].
      eapply run_effects_trans;
        [by eapply crawl_url_dfs_run_effects|].
      eapply run_effects_trans; [|eapply run_effects_trans].
      * apply (run_effects_quiet c1 (with_tasks (tail (tasks c1)) c1)); cbn;
          try done; lia.
      * apply rescan_run_effects.
      * apply run_effects_quiet; cbn; try done; lia.
Qed.

Lemma run_crawler_run_effects fuel seed_urls c c' :
  run_crawler w fuel seed_urls c = Some c' → run_effects c c'.
Proof.
  unfold run_crawler. intros Hrun%run_loop_run_effects.
  eapply run_effects_trans; [|exact Hrun].
  rewrite create_initial_tasks_exact.
  apply run_effects_quiet; cbn; try done; lia.
Qed.

End RunEffects.

(** * More of the crawler *)

(** ** The page table *)

(** X1: a page that was just cached is returned by the lookup, the lookup
    of any other URL is what it was, caching the same URL again replaces
    the row, and the row is served as long as the clock has moved on by
    less than 24 hours and not any longer. *)
Theorem cache_page_lookup_round_trip (url content : string) (c : Crawler) :
  (get_cached_page url (cache_page url content c)).1 = Some content
  ∧ (∀ other, other ≠ url →
       (get_cached_page other (cache_page url content c)).1
       = (get_cached_page other c).1)
  ∧ (∀ content0,
       cache_page url content (cache_page url content0 c)
       = cache_page url content c)
  ∧ (∀ now,
       (get_cached_page url (with_clock now (cache_page url content c))).1
       = if now - clock c <? hours_24 then Some content else None).
Proof.
  split_and!.
  - unfold get_cached_page, cache_page. cbn. rewrite lookup_insert_eq.
    by rewrite Z.sub_diag.
  - intros other Hother. unfold get_cached_page, cache_page. cbn.
    rewrite lookup_insert_ne by done. by repeat case_match.
  - intros content0. unfold cache_page. cbn. by rewrite insert_insert_eq.
  - intros now. unfold get_cached_page, cache_page, with_clock. cbn.
    rewrite lookup_insert_eq. by destruct (now - clock c <? hours_24).
Qed.

(** ** Claiming a URL *)

Section Claims.
Context (w : World).

Lemma crawl_visited_noop url depth c :
  url ∈ visited c → crawl_url_dfs w url depth c = Some c.
Proof.
  intros Hin. unfold crawl_url_dfs.
  rewrite (bool_decide_eq_true_2 _ Hin). by rewrite orb_true_r.
Qed.

Lemma crawl_claims_visited url depth c c' :
  crawl_url_dfs w url depth c = Some c' → claims url depth c = true →
  url ∈ visited c' ∧ visited_urls c' !! url = Some (clock c).
Proof.
  intros Hc'%crawl_url_dfs_effects Hclaims.
  destruct (ce_claim _ _ _ _ _ Hc' Hclaims) as [-> ->].
  split; [set_solver|]. by rewrite lookup_insert_eq.
Qed.

End Claims.

(** X2: when the task gets as far as the request and the response is 200
    with an HTML content type, the page table holds the downloaded content
    under the URL, stamped with the current time; the lookup returns it;
    the URL is visited; and exactly one page and one success are counted.
    When the task downloads nothing, the page table and those two counters
    are what they were. *)
Theorem fetched_page_is_cached (w : World) (url : string) (depth : Z)
    (c c' : Crawler) :
  crawl_url_dfs w url depth c = Some c' →
  match fetched_content w url depth c with
  | Some content =>
      pages c' !! url = Some (content, clock c)
      ∧ (get_cached_page url c').1 = Some content
      ∧ url ∈ visited c'
      ∧ pages_crawled (metrics c') = pages_crawled (metrics c) + 1
      ∧ successful_requests (metrics c') = successful_requests (metrics c) + 1
  | None =>
      pages c' = pages c
      ∧ pages_crawled (metrics c') = pages_crawled (metrics c)
      ∧ successful_requests (metrics c') = successful_requests (metrics c)
  end.
Proof.
  intros Hcrawl.
  destruct (crawl_url_dfs_step w url depth c) as (c'' & Hc'' & Hstep).
  rewrite Hcrawl in Hc''. injection Hc'' as <-.
  pose proof (crawl_url_dfs_effects w _ _ _ _ Hcrawl) as He.
  pose proof (ce_pages _ _ _ _ _ He) as Hpages.
  pose proof (ce_pages_crawled _ _ _ _ _ He) as Hpc.
  pose proof (ce_successful_requests _ _ _ _ _ He) as Hsr.
  destruct (fetched_content w url depth c) as [content|] eqn:Hfetched.
  2:{ split_and!; [done|lia|lia]. }
  assert (claims url depth c = true) as Hclaims.
  { unfold fetched_content in Hfetched. rewrite reaches_fetch_claims in Hfetched.
    by destruct (claims url depth c). }
  assert (pages c' !! url = Some (content, clock c)) as Hrow
    by by rewrite Hpages, lookup_insert_eq.
  split_and!; [done| |by eapply crawl_claims_visited|lia|lia].
  unfold get_cached_page. rewrite Hrow, (ts_clock _ _ _ _ Hstep), Z.sub_diag.
  done.
Qed.

(** The seed of the example is downloaded. *)
Lemma fetched_page_is_cached_witness :
  ∃ c', crawl_url_dfs Scenario.world Scenario.seed 0
          (Scenario.new_crawler 3 8000 4000) = Some c'
        ∧ pages c' !! Scenario.seed = Some (Scenario.seed_html, 0).
Proof.
  assert (∃ c', crawl_url_dfs Scenario.world Scenario.seed 0
                  (Scenario.new_crawler 3 8000 4000) = Some c') as [c' Hc']
    by (eexists; vm_compute; reflexivity).
  exists c'. split; [done|].
  pose proof (fetched_page_is_cached _ _ _ _ _ Hc') as H.
  assert (fetched_content Scenario.world Scenario.seed 0
            (Scenario.new_crawler 3 8000 4000) = Some Scenario.seed_html)
    as Hf by (vm_compute; reflexivity).
  rewrite Hf in H. apply H.
Defined.



(** X4: running the task of a URL a second time, at the same depth,
    changes nothing; and once a task has claimed its URL, no task for that
    URL changes anything, whatever its depth. *)
Theorem crawl_url_dfs_idempotent (w : World) (url : string) (depth : Z)
    (c c' : Crawler) :
  crawl_url_dfs w url depth c = Some c' →
  crawl_url_dfs w url depth c' = Some c'
  ∧ (claims url depth c = true →
     ∀ depth', crawl_url_dfs w url depth' c' = Some c').
Proof.
  intros Hcrawl.
  destruct (claims url depth c) eqn:Hclaims.
  - destruct (crawl_claims_visited w _ _ _ _ Hcrawl Hclaims) as [Hin _].
    split; [|intros _ depth']; by apply crawl_visited_noop.
  - pose proof (ce_noop _ _ _ _ _ (crawl_url_dfs_effects w _ _ _ _ Hcrawl)
                  Hclaims) as ->.
    split; [done|]. intros. discriminate.
Qed.

Lemma crawl_url_dfs_idempotent_witness :
  ∃ c', crawl_url_dfs Scenario.world Scenario.seed 0
          (Scenario.new_crawler 3 8000 4000) = Some c'
        ∧ crawl_url_dfs Scenario.world Scenario.seed 0 c' = Some c'.
Proof.
  assert (∃ c', crawl_url_dfs Scenario.world Scenario.seed 0
                  (Scenario.new_crawler 3 8000 4000) = Some c') as [c' Hc']
    by (eexists; vm_compute; reflexivity).
  exists c'. split; [done|].
  exact (proj1 (crawl_url_dfs_idempotent _ _ _ _ _ Hc')).
Defined.

(** ** Across a run and across restarts *)

Lemma init_visited (depth_limit : Z) (max_threads : option Z) (cpu_count : Z)
    (memory_gb : Q) db_visited db_pages files (now : Z) :
  visited (init depth_limit max_threads cpu_count memory_gb db_visited
             db_pages files now) = dom db_visited.
Proof. reflexivity. Qed.

(** X5: if every visited URL has its row in the visited table when a run
    starts, the same holds when it ends, and a crawler constructed
    afterwards over the tables the run leaves (whatever its other
    arguments) starts with every URL of the run in its visited set. *)
Theorem visited_survives_restart (w : World) (fuel : nat)
    (seed_urls : list string) (c c' : Crawler) :
  visited_saved c →
  run_crawler w fuel seed_urls c = Some c' →
  visited_saved c'
  ∧ visited c ⊆ visited c'
  ∧ ∀ depth_limit max_threads cpu_count memory_gb now,
      visited c'
      ⊆ visited (init depth_limit max_threads cpu_count memory_gb
                   (visited_urls c') (pages c') (image_files c') now).
Proof.
  intros Hsaved Hrun%run_crawler_run_effects.
  pose proof (re_saved _ _ Hrun Hsaved) as Hsaved'.
  split_and!; [done|apply (re_visited _ _ Hrun)|].
  intros. by rewrite init_visited.
Qed.

Lemma visited_survives_restart_witness :
  ∃ c', run_crawler Scenario.world 5 [Scenario.seed]
          (Scenario.new_crawler 0 8000 4000) = Some c'
        ∧ visited_saved c'.
Proof.
  assert (∃ c', run_crawler Scenario.world 5 [Scenario.seed]
                  (Scenario.new_crawler 0 8000 4000) = Some c') as [c' Hc']
    by (eexists; vm_compute; reflexivity).
  exists c'. split; [done|].
  refine (proj1 (visited_survives_restart _ _ _ _ _ _ Hc')).
  unfold visited_saved. cbn. apply empty_subseteq.
Defined.

(** X6: a run never forgets: the visited set, the rows of the visited
    table, the rows of the page table and the image files at its end
    include those at its start, and the limits, the running flag and the
    clock are what they were. *)
Theorem run_only_adds (w : World) (fuel : nat) (seed_urls : list string)
    (c c' : Crawler) :
  run_crawler w fuel seed_urls c = Some c' →
  visited c ⊆ visited c'
  ∧ dom (visited_urls c) ⊆ dom (visited_urls c')
  ∧ dom (pages c) ⊆ dom (pages c')
  ∧ image_files c ⊆ image_files c'
  ∧ max_depth c' = max_depth c
  ∧ max_concurrent c' = max_concurrent c
  ∧ is_running c' = is_running c.
Proof.
  intros [Hmd Hmc Hrun _ Hv Hvu _ _ Hp Hf _ _ _ _]%run_crawler_run_effects.
  by split_and!.
Qed.

Lemma run_only_adds_witness :
  ∃ c', run_crawler Scenario.world 5 [Scenario.seed]
          (Scenario.cached_crawler 0) = Some c'
        ∧ dom (pages (Scenario.cached_crawler 0)) ⊆ dom (pages c').
Proof.
  assert (∃ c', run_crawler Scenario.world 5 [Scenario.seed]
                  (Scenario.cached_crawler 0) = Some c') as [c' Hc']
    by (eexists; vm_compute; reflexivity).
  exists c'. split; [done|].
  by destruct (run_only_adds _ _ _ _ _ Hc') as (_ & _ & H & _).
Defined.

(** X18: the cache-hit branch of the task is never taken in a crawler
    whose cached pages all belong to visited URLs.  That property holds
    for a crawler constructed over tables in which every cached URL has a
    visited row, a run keeps it, and under it every task that claims its
    URL goes on to the request. *)
Theorem cached_pages_are_visited (w : World) (fuel : nat)
    (seed_urls : list string) (c c' : Crawler) :
  pages_claimed c →
  run_crawler w fuel seed_urls c = Some c' →
  pages_claimed c'
  ∧ (∀ url depth, claims url depth c' = true →
                  cache_hit url c' = false
                  ∧ reaches_fetch url depth c' = true)
  ∧ (∀ depth_limit max_threads cpu_count memory_gb db_visited db_pages files
       now,
       dom db_pages ⊆ dom db_visited →
       pages_claimed (init depth_limit max_threads cpu_count memory_gb
                        db_visited db_pages files now)).
Proof.
  intros Hclaimed Hrun%run_crawler_run_effects.
  pose proof (re_claimed _ _ Hrun Hclaimed) as Hclaimed'.
  split_and!; [done| |by intros].
  intros url depth Hclaims.
  assert (cache_hit url c' = false) as Hmiss.
  { unfold claims in Hclaims.
    apply andb_true_iff in Hclaims
      as [_ Hnew%negb_true_iff%bool_decide_eq_false].
    unfold cache_hit.
    destruct (pages c' !! url) as [[content last_crawled]|] eqn:Hrow; [|done].
    exfalso. apply Hnew, Hclaimed', elem_of_dom. by eexists. }
  split; [done|]. by rewrite reaches_fetch_claims, Hclaims, Hmiss.
Qed.

Lemma cached_pages_are_visited_witness :
  ∃ c', run_crawler Scenario.world 5 [Scenario.seed]
          (Scenario.new_crawler 0 8000 4000) = Some c'
        ∧ pages_claimed c'.
Proof.
  assert (∃ c', run_crawler Scenario.world 5 [Scenario.seed]
                  (Scenario.new_crawler 0 8000 4000) = Some c') as [c' Hc']
    by (eexists; vm_compute; reflexivity).
  exists c'. split; [done|].
  refine (proj1 (cached_pages_are_visited _ _ _ _ _ _ Hc')).
  unfold pages_claimed. cbn. by rewrite dom_empty_L.
Defined.

(** X11: no counter of the metrics ever goes down during a run, and the
    number of pages crawled moves together with the number of successful
    requests: if the two are equal when the run starts, as they are in a
    new crawler, they are equal when it ends. *)
Theorem counters_only_grow (w : World) (fuel : nat) (seed_urls : list string)
    (c c' : Crawler) :
  run_crawler w fuel seed_urls c = Some c' →
  metrics_le (metrics c) (metrics c')
  ∧ (pages_crawled (metrics c) = successful_requests (metrics c) →
     pages_crawled (metrics c') = successful_requests (metrics c'))
  ∧ ∀ depth_limit max_threads cpu_count memory_gb db_visited db_pages files
      now,
      metrics (init depth_limit max_threads cpu_count memory_gb db_visited
                 db_pages files now)
      = {| pages_crawled := 0; bytes_downloaded := 0;
           successful_requests := 0; failed_requests := 0;
           cached_hits := 0 |}.
Proof.
  intros Hrun%run_crawler_run_effects.
  pose proof (re_balance _ _ Hrun) as Hbalance.
  split_and!; [apply (re_metrics _ _ Hrun)|lia|done].
Qed.

Lemma counters_only_grow_witness :
  ∃ c', run_crawler Scenario.world 5 [Scenario.seed]
          (Scenario.new_crawler 0 8000 4000) = Some c'
        ∧ pages_crawled (metrics c') = successful_requests (metrics c').
Proof.
  assert (∃ c', run_crawler Scenario.world 5 [Scenario.seed]
                  (Scenario.new_crawler 0 8000 4000) = Some c') as [c' Hc']
    by (eexists; vm_compute; reflexivity).
  exists c'. split; [done|].
  by apply (counters_only_grow _ _ _ _ _ Hc').
Defined.

(** X13: a queue that holds no more records than its [maxsize] when a run
    starts holds no more than that when the run ends, and the two queues
    of a new crawler are empty; one task adds at most one text record,
    which carries the task's URL and depth and a text of more than 50
    words. *)
Theorem queues_stay_within_capacity (w : World) :
  (∀ fuel seed_urls c c',
     run_crawler w fuel seed_urls c = Some c' →
     (within_capacity (text_queue c) → within_capacity (text_queue c'))
     ∧ (within_capacity (image_queue c) → within_capacity (image_queue c')))
  ∧ (∀ url depth c c',
       crawl_url_dfs w url depth c = Some c' →
       text_queue c' = text_queue c
       ∨ ∃ text, 50 < word_count text
                 ∧ PyQueue.full (text_queue c) = false
                 ∧ text_queue c'
                   = PyQueue.append (text_queue c)
                       {| tr_url := url; tr_text := text; tr_depth := depth |})
  ∧ (∀ depth_limit max_threads cpu_count memory_gb db_visited db_pages files
       now,
       let c := init depth_limit max_threads cpu_count memory_gb db_visited
                  db_pages files now in
       PyQueue.items (text_queue c) = []
       ∧ PyQueue.items (image_queue c) = []
       ∧ within_capacity (text_queue c) ∧ within_capacity (image_queue c)).
Proof.
  split_and!.
  - intros fuel seed_urls c c' Hrun%run_crawler_run_effects.
    split; [apply (re_text_capacity _ _ Hrun)|apply (re_image_capacity _ _ Hrun)].
  - intros url depth c c' Hc'%crawl_url_dfs_effects. apply (ce_text _ _ _ _ _ Hc').
  - intros. cbn zeta. split_and!; [done..| |]; unfold within_capacity;
      intros Hpos;
      match goal with |- PyQueue.qsize ?q ≤ _ =>
        change (PyQueue.qsize q) with 0
      end; lia.
Qed.

Lemma queues_stay_within_capacity_witness :
  ∃ c', run_crawler Scenario.world 5 [Scenario.seed] Scenario.full_crawler
        = Some c'
        ∧ within_capacity (text_queue c').
Proof.
  assert (∃ c', run_crawler Scenario.world 5 [Scenario.seed]
                  Scenario.full_crawler = Some c') as [c' Hc']
    by (eexists; vm_compute; reflexivity).
  exists c'. split; [done|].
  apply (proj1 (proj1 (queues_stay_within_capacity Scenario.world)
                  _ _ _ _ Hc')).
  intros _. vm_compute. discriminate.
Defined.

(** ** Tasks in flight *)

(** X7: none of the three places that create tasks (the seeds, the links
    of a fetched page, the rescan) takes the number of tasks in flight
    above [max_concurrent]: after each of them the number is at most the
    larger of what it was and the cap, so a crawler within its cap stays
    within it. *)
Theorem in_flight_cap_kept (w : World) (c : Crawler) :
  len_tasks c ≤ max_concurrent c →
  (∀ seed_urls,
     len_tasks (create_initial_tasks seed_urls c) ≤ max_concurrent c)
  ∧ (∀ url depth c',
       crawl_url_dfs w url depth c = Some c' →
       len_tasks c' ≤ max_concurrent c')
  ∧ len_tasks (rescan w c) ≤ max_concurrent (rescan w c).
Proof.
  intros Hcap. split_and!.
  - intros seed_urls.
    pose proof (create_initial_tasks_bounded seed_urls c) as Hb.
    unfold tasks_bounded in Hb. lia.
  - intros url depth c' Hc'.
    destruct (crawl_url_dfs_step w url depth c) as (c'' & Hc'' & Hstep).
    rewrite Hc' in Hc''. injection Hc'' as <-.
    pose proof (ce_tasks_bounded _ _ _ _ _ (crawl_url_dfs_effects w _ _ _ _ Hc'))
      as Hb.
    unfold tasks_bounded in Hb. rewrite (ts_max_concurrent _ _ _ _ Hstep). lia.
  - destruct (rescan_run_effects w c) as [He Hb].
    unfold tasks_bounded in Hb. rewrite (re_max_concurrent _ _ He). lia.
Qed.

Lemma in_flight_cap_kept_witness :
  len_tasks (create_initial_tasks
               ["http://a.test/"; "http://b.test/"; "http://c.test/";
                "http://d.test/"; "http://e.test/"]
               (Scenario.new_crawler 3 8000 4000)) ≤ 4.
Proof.
  apply (in_flight_cap_kept Scenario.world (Scenario.new_crawler 3 8000 4000)).
  vm_compute. discriminate.
Defined.

(** X8: the tasks a task schedules are for links of the next depth, a
    depth within [max_depth], and for URLs that are not visited when the
    task ends, so never for the task's own URL once it is claimed; and the
    tasks the rescan adds are for URLs that are not visited either. *)
Theorem scheduled_tasks_are_new (w : World) :
  (∀ url depth c c',
     crawl_url_dfs w url depth c = Some c' →
     ∃ new, tasks c' = tasks c ++ new
            ∧ Forall (λ t, task_depth t = depth + 1
                           ∧ task_depth t ≤ max_depth c
                           ∧ (task_url t ∉ visited c')
                           ∧ (claims url depth c = true → task_url t ≠ url))
                new)
  ∧ (∀ c, ∃ new, tasks (rescan w c) = tasks c ++ new
                 ∧ Forall (λ t, task_url t ∉ visited c) new).
Proof.
  split.
  - intros url depth c c' Hcrawl.
    pose proof (crawl_url_dfs_effects w _ _ _ _ Hcrawl) as He.
    destruct (ce_tasks_depth _ _ _ _ _ He) as (new & Hnew & Fnew).
    exists new. split; [done|].
    eapply Forall_impl; [exact Fnew|]. intros t (Hd & Hmax & Hvis).
    split_and!; [done..|].
    intros Hclaims Heq. rewrite Heq in Hvis.
    by destruct (crawl_claims_visited w _ _ _ _ Hcrawl Hclaims) as [Hin _].
  - intros c. unfold rescan, rescan_ended.
    destruct ((len_tasks c <? max_concurrent c) && is_running c);
      cbn [after].
    2:{ exists []. by rewrite app_nil_r. }
    destruct (collect_unvisited_quiet w (elements (visited c)) [] c)
      as [He Ht].
    destruct (collect_unvisited w (elements (visited c)) [] c)
      as [[unvisited_urls|] c1]; cbn [snd after] in *.
    2:{ exists []. by rewrite app_nil_r. }
    destruct (create_new_tasks_bounded unvisited_urls c1)
      as (_ & new & -> & Fnew).
    exists new. cbn. rewrite Ht. split; [done|].
    eapply Forall_impl; [exact Fnew|]. intros t Hnew Hin.
    by apply Hnew, (re_visited _ _ He).
Qed.

Lemma scheduled_tasks_are_new_witness :
  ∃ c' new,
    crawl_url_dfs Scenario.world Scenario.seed 0
      (Scenario.new_crawler 3 8000 4000) = Some c'
    ∧ tasks c' = tasks (Scenario.new_crawler 3 8000 4000) ++ new
    ∧ Forall (λ t, task_depth t = 0 + 1) new.
Proof.
  assert (∃ c', crawl_url_dfs Scenario.world Scenario.seed 0
                  (Scenario.new_crawler 3 8000 4000) = Some c') as [c' Hc']
    by (eexists; vm_compute; reflexivity).
  destruct (proj1 (scheduled_tasks_are_new Scenario.world) _ _ _ _ Hc')
    as (new & Hnew & Fnew).
  exists c', new. split_and!; [done..|].
  eapply Forall_impl; [exact Fnew|]. by intros t [? _].
Defined.

(** X9: the seeds that get a task are the first ones of the list, in
    order, as many as still fit under [max_concurrent], each at depth 0;
    the others are dropped.  So all seeds get a task when they fit, and
    none when the cap is reached already. *)
Theorem seeds_get_tasks_up_to_cap (seed_urls : list string) (c : Crawler) :
  create_initial_tasks seed_urls c
  = with_tasks
      (tasks c
       ++ map (λ url, {| task_url := url; task_depth := 0 |})
            (take (Z.to_nat (max_concurrent c - len_tasks c)) seed_urls)) c
  ∧ (len_tasks c + Z.of_nat (length seed_urls) ≤ max_concurrent c →
     tasks (create_initial_tasks seed_urls c)
     = tasks c ++ map (λ url, {| task_url := url; task_depth := 0 |}) seed_urls)
  ∧ (max_concurrent c ≤ len_tasks c → create_initial_tasks seed_urls c = c).
Proof.
  split_and!.
  - apply create_initial_tasks_exact.
  - intros Hfit. rewrite create_initial_tasks_exact. cbn.
    by rewrite take_ge by lia.
  - intros Hfull. rewrite create_initial_tasks_exact.
    replace (Z.to_nat (max_concurrent c - len_tasks c)) with 0%nat by lia.
    cbn. by rewrite app_nil_r, with_tasks_same.
Qed.

Lemma seeds_get_tasks_up_to_cap_witness :
  tasks (create_initial_tasks [Scenario.seed; Scenario.leaf]
           (Scenario.new_crawler 3 8000 4000))
  = [{| task_url := Scenario.seed; task_depth := 0 |};
     {| task_url := Scenario.leaf; task_depth := 0 |}].
Proof.
  destruct (seeds_get_tasks_up_to_cap [Scenario.seed; Scenario.leaf]
              (Scenario.new_crawler 3 8000 4000)) as (_ & Hfit & _).
  rewrite Hfit; [reflexivity|]. vm_compute. discriminate.
Defined.

(** ** Politeness *)

Lemma stats_of_update_same domain ok c :
  stats_of domain (update_domain_stats domain ok c)
  = if ok
    then {| errors := errors (stats_of domain c);
            success := success (stats_of domain c) + 1 |}
    else {| errors := errors (stats_of domain c) + 1;
            success := success (stats_of domain c) |}.
Proof.
  unfold update_domain_stats, stats_of. destruct ok; cbn;
    by rewrite lookup_insert_eq.
Qed.

Lemma stats_of_update_other domain other ok c :
  other ≠ domain →
  stats_of other (update_domain_stats domain ok c) = stats_of other c.
Proof.
  intros Hne. unfold update_domain_stats, stats_of. destruct ok; cbn;
    by rewrite lookup_insert_ne.
Qed.

Lemma success_factor_antitone (s : Z) :
  (Qmax (5 # 10) (1 - inject_Z (s + 1) * (1 # 10))
   <= Qmax (5 # 10) (1 - inject_Z s * (1 # 10)))%Q.
Proof.
  apply Q.max_le_compat_l. rewrite inject_Z_plus.
  change (inject_Z 1) with 1%Q. lra.
Qed.

(** X10: how the delay of an origin answers to what is recorded for it.
    A recorded failure raises the delay by half the success factor, which
    is at least a quarter of a second; a recorded success never raises it
    (the error count being non-negative); the delay of any other origin
    does not move; and the delay is at least half of
    [1 + 0.5 · errors]. *)
Theorem delay_follows_outcomes (domain : string) (c : Crawler) :
  0 ≤ errors (stats_of domain c) →
  (get_adaptive_delay domain (update_domain_stats domain false c)
   == get_adaptive_delay domain c
      + (1 # 2) * Qmax (5 # 10)
                    (1 - inject_Z (success (stats_of domain c)) * (1 # 10)))%Q
  ∧ (get_adaptive_delay domain c + (1 # 4)
     <= get_adaptive_delay domain (update_domain_stats domain false c))%Q
  ∧ (get_adaptive_delay domain (update_domain_stats domain true c)
     <= get_adaptive_delay domain c)%Q
  ∧ (∀ other ok, other ≠ domain →
       get_adaptive_delay other (update_domain_stats domain ok c)
       = get_adaptive_delay other c)
  ∧ ((1 # 2) * (1 + (1 # 2) * inject_Z (errors (stats_of domain c)))
     <= get_adaptive_delay domain c)%Q.
Proof.
  intros Herr.
  assert (0 <= inject_Z (errors (stats_of domain c)))%Q as He
    by (change 0%Q with (inject_Z 0); by rewrite <- Zle_Qle).
  pose proof (success_factor_floor (success (stats_of domain c))) as Hfloor.
  pose proof (success_factor_antitone (success (stats_of domain c))) as Hanti.
  unfold get_adaptive_delay.
  rewrite !stats_of_update_same. cbn [errors success].
  rewrite inject_Z_plus. change (inject_Z 1) with 1%Q.
  set (e := inject_Z (errors (stats_of domain c))) in *.
  set (f := Qmax (5 # 10)
              (1 - inject_Z (success (stats_of domain c)) * (1 # 10))) in *.
  set (f' := Qmax (5 # 10)
               (1 - inject_Z (success (stats_of domain c) + 1) * (1 # 10)))
    in *.
  split_and!.
  - ring.
  - nra.
  - nra.
  - intros other ok Hne. by rewrite stats_of_update_other.
  - nra.
Qed.

(** The origin of the example with one error and seven successes. *)
Lemma delay_follows_outcomes_witness :
  (get_adaptive_delay "seed.test" Scenario.troubled_crawler + (1 # 4)
   <= get_adaptive_delay "seed.test"
        (update_domain_stats "seed.test" false Scenario.troubled_crawler))%Q.
Proof.
  apply (delay_follows_outcomes "seed.test" Scenario.troubled_crawler).
  vm_compute. discriminate.
Defined.

(** ** Derived metrics *)

(** X12: with non-negative counters the success rate is a fraction
    between 0 and 1; it is 0 when no request was counted (nothing is
    divided by zero), and 1 when requests were counted and none failed. *)
Theorem success_rate_is_a_fraction (m : Metrics) :
  0 ≤ successful_requests m → 0 ≤ failed_requests m →
  (0 <= success_rate m)%Q ∧ (success_rate m <= 1)%Q
  ∧ (successful_requests m + failed_requests m = 0 → success_rate m = 0%Q)
  ∧ (0 < successful_requests m → failed_requests m = 0 →
     (success_rate m == 1)%Q).
Proof.
  intros Hs Hf. unfold success_rate.
  destruct (Z.ltb_spec 0 (successful_requests m + failed_requests m))
    as [Hpos|Hzero].
  - assert (0 < inject_Z (successful_requests m + failed_requests m))%Q as Hd
      by (change 0%Q with (inject_Z 0); by rewrite <- Zlt_Qlt).
    assert (0 <= inject_Z (successful_requests m))%Q as Hn
      by (change 0%Q with (inject_Z 0); by rewrite <- Zle_Qle).
    assert (inject_Z (successful_requests m)
            <= inject_Z (successful_requests m + failed_requests m))%Q as Hle
      by (rewrite <- Zle_Qle; lia).
    split_and!.
    + apply Qle_shift_div_l; [done|]. by rewrite Qmult_0_l.
    + apply Qle_shift_div_r; [done|]. by rewrite Qmult_1_l.
    + lia.
    + intros _ Hf0. rewrite Hf0, Z.add_0_r in *. apply Qmult_inv_r.
      intros Heq. rewrite Heq in Hd. by apply Qlt_irrefl in Hd.
  - split_and!; try done. lia.
Qed.

Lemma success_rate_is_a_fraction_witness :
  (success_rate {| pages_crawled := 3; bytes_downloaded := 900;
                   successful_requests := 3; failed_requests := 1;
                   cached_hits := 0 |} <= 1)%Q.
Proof.
  apply success_rate_is_a_fraction; vm_compute; discriminate.
Defined.

(** ** The image files *)

(** X16: once [process_image] has returned a picture for a URL, the file
    of that URL exists, and the next call for the URL is served from the
    file: it returns the stored picture, counts a cache hit and leaves the
    files as they are, whatever the network would answer.  The file written
    after a download holds the picture re-encoded as JPEG.  A call that
    returns no picture writes no file. *)
Theorem image_served_from_file (w : World) (img_url : string) (c : Crawler) :
  match (process_image w img_url c).1 with
  | Some image =>
      ∃ stored,
        image_files (process_image w img_url c).2
          !! md5_hexdigest w img_url = Some stored
        ∧ (image_files c !! md5_hexdigest w img_url = None →
           stored = jpeg_q85 w image)
        ∧ ∀ w',
            md5_hexdigest w' = md5_hexdigest w →
            process_image w' img_url (process_image w img_url c).2
            = (Some stored, bump_cached_hits (process_image w img_url c).2)
  | None => image_files (process_image w img_url c).2 = image_files c
  end.
Proof.
  set (r := process_image w img_url c).
  assert (r = process_image w img_url c) as Hr by done.
  clearbody r. unfold process_image in Hr.
  destruct (image_files c !! md5_hexdigest w img_url) as [stored|] eqn:Hfile.
  { subst r. cbn. exists stored. split_and!; [done..|].
    intros w' Hmd5. unfold process_image. cbn. by rewrite Hmd5, Hfile. }
  destruct (image_get w img_url) as [|status [image|]];
    [by subst r| |]; destruct (status =? 200); subst r; cbn; try done.
  exists (jpeg_q85 w image). rewrite lookup_insert_eq. split_and!; [done..|].
  intros w' Hmd5. unfold process_image. cbn.
  by rewrite Hmd5, lookup_insert_eq.
Qed.

(** ** Words and paragraphs *)

Lemma split_from_app_space cur s sp t :
  Py.isspace sp = true →
  Py.split_from cur (s ++ sp :: t)
  = Py.split_from cur s ++ Py.split_from [] t.
Proof.
  intros Hsp. revert cur. induction s as [|c r IH]; intros cur;
    cbn [app Py.split_from].
  - rewrite Hsp. by destruct cur.
  - destruct (Py.isspace c); [|apply IH].
    destruct cur; by rewrite IH.
Qed.

Lemma split_from_lstrip l :
  Py.split_from [] (Py.lstrip l) = Py.split_from [] l.
Proof.
  induction l as [|c r IH]; [done|]. cbn [Py.lstrip Py.split_from].
  by destruct (Py.isspace c) eqn:Hc; cbn [Py.split_from]; rewrite ?Hc.
Qed.

Lemma split_from_rstrip cur l :
  Py.split_from cur (rev (Py.lstrip (rev l))) = Py.split_from cur l.
Proof.
  induction l as [|c l IH] using rev_ind; [done|].
  rewrite rev_app_distr. cbn [rev app Py.lstrip].
  destruct (Py.isspace c) eqn:Hc.
  - rewrite IH, split_from_app_space by done. cbn. by rewrite app_nil_r.
  - cbn [rev]. by rewrite rev_involutive.
Qed.

Lemma split_strip s : Py.split (Py.strip s) = Py.split s.
Proof.
  unfold Py.split, Py.strip.
  by rewrite list_ascii_of_string_of_list_ascii, split_from_rstrip,
    split_from_lstrip.
Qed.

Lemma list_ascii_of_string_app (a b : string) :
  list_ascii_of_string (a ++ b)
  = list_ascii_of_string a ++ list_ascii_of_string b.
Proof.
  induction a as [|c a IH]; [done|].
  change (list_ascii_of_string (String c a ++ b))
    with (c :: list_ascii_of_string (a ++ b)).
  by rewrite IH.
Qed.

Lemma split_app_space (a b : string) :
  Py.split (a ++ " " ++ b) = Py.split a ++ Py.split b.
Proof.
  unfold Py.split. rewrite !list_ascii_of_string_app. cbn.
  by apply split_from_app_space.
Qed.

Lemma split_join_space (parts : list string) :
  Py.split (Py.join " " parts) = concat (map Py.split parts).
Proof.
  induction parts as [|p rest IH]; [done|].
  destruct rest as [|q rest].
  - cbn. by rewrite app_nil_r.
  - change (Py.join " " (p :: q :: rest))
      with (p ++ " " ++ Py.join " " (q :: rest))%string.
    by rewrite split_app_space, IH.
Qed.

(** X15: the words of the text of a page are the words of its paragraphs,
    one paragraph after the other: stripping and joining with single
    spaces neither merges nor splits a word.  So the word count tested
    against 50 is the sum of the word counts of the paragraphs. *)
Theorem text_words_are_paragraph_words (soup : Soup) :
  Py.split (extract_text soup).1
  = concat (map (λ p, Py.split (Bs4.get_text p))
              (Bs4.find_all ["p"] (extract_text soup).2))
  ∧ word_count (extract_text soup).1
    = Z.of_nat
        (sum_list (map (λ p, length (Py.split (Bs4.get_text p)))
                     (Bs4.find_all ["p"] (extract_text soup).2))).
Proof.
  assert (Py.split (extract_text soup).1
          = concat (map (λ p, Py.split (Bs4.get_text p))
                      (Bs4.find_all ["p"] (extract_text soup).2))) as Hsplit.
  { unfold extract_text. cbn [fst snd]. rewrite split_join_space, map_map.
    f_equal. apply map_ext. intros p. apply split_strip. }
  split; [done|].
  unfold word_count. rewrite Hsplit, length_concat. f_equal. f_equal.
  by rewrite <- list_fmap_compose.
Qed.

(** ** Stripping the document *)

Lemma Node_nested_ind (P : Node → Prop) :
  (∀ s, P (Text s)) →
  (∀ tag attrs children, Forall P children → P (Elem tag attrs children)) →
  ∀ n, P n.
Proof.
  intros HText HElem. fix IH 1. intros [s|tag attrs children].
  - apply HText.
  - apply HElem. induction children as [|child rest IHrest].
    + constructor.
    + constructor; [apply IH|exact IHrest].
Qed.

Lemma flat_map_nil_Forall {A B} (f : A → list B) (l : list A) :
  Forall (λ x, f x = []) l → flat_map f l = [].
Proof. induction 1 as [|x l Hx _ IH]; [done|]. cbn. by rewrite Hx, IH. Qed.

Lemma flat_map_flat_map {A B C} (f : A → list B) (g : B → list C) (l : list A) :
  flat_map g (flat_map f l) = flat_map (λ x, flat_map g (f x)) l.
Proof.
  induction l as [|x l IH]; [done|]. cbn. by rewrite flat_map_app, IH.
Qed.

Lemma flat_map_ext_Forall {A B} (f g : A → list B) (l : list A) :
  Forall (λ x, f x = g x) l → flat_map f l = flat_map g l.
Proof. induction 1 as [|x l Hx _ IH]; [done|]. cbn. by rewrite Hx, IH. Qed.

Lemma find_all_decompose_node names n :
  flat_map (Bs4.find_all_node names) (Bs4.decompose_node names n) = [].
Proof.
  induction n as [s|tag attrs children IH] using Node_nested_ind; [done|].
  cbn [Bs4.decompose_node].
  destruct (Bs4.tag_in tag names) eqn:Htag; [done|].
  cbn [flat_map Bs4.find_all_node]. rewrite Htag, app_nil_r. cbn [app].
  rewrite flat_map_flat_map. by apply flat_map_nil_Forall.
Qed.

Lemma decompose_decompose_node names n :
  flat_map (Bs4.decompose_node names) (Bs4.decompose_node names n)
  = Bs4.decompose_node names n.
Proof.
  induction n as [s|tag attrs children IH] using Node_nested_ind; [done|].
  cbn [Bs4.decompose_node].
  destruct (Bs4.tag_in tag names) eqn:Htag; [done|].
  cbn [flat_map Bs4.decompose_node]. rewrite Htag, app_nil_r.
  do 2 f_equal. rewrite flat_map_flat_map. by apply flat_map_ext_Forall.
Qed.

(** X14: after [extract_text] the document the caller holds has no
    [script], [style], [nav], [header] or [footer] element left, so the
    images and links taken from it afterwards never come from inside such
    an element; and calling [extract_text] again on that document gives
    the same text and leaves the document as it is. *)
Theorem extract_text_strips_once (soup : Soup) :
  Bs4.find_all ["script"; "style"; "nav"; "header"; "footer"]
    (extract_text soup).2 = []
  ∧ extract_text (extract_text soup).2 = extract_text soup.
Proof.
  unfold extract_text, Bs4.find_all, Bs4.decompose_all. cbn [fst snd].
  split.
  - rewrite flat_map_flat_map. apply flat_map_nil_Forall, Forall_forall.
    intros n _. apply find_all_decompose_node.
  - assert (flat_map
              (Bs4.decompose_node ["script"; "style"; "nav"; "header"; "footer"])
              (flat_map
                 (Bs4.decompose_node
                    ["script"; "style"; "nav"; "header"; "footer"]) soup)
            = flat_map
                (Bs4.decompose_node
                   ["script"; "style"; "nav"; "header"; "footer"]) soup) as ->.
    { rewrite flat_map_flat_map. apply flat_map_ext_Forall, Forall_forall.
      intros n _. apply decompose_decompose_node. }
    done.
Qed.

(** ** Picture URLs *)

Lemma lower_app (a b : string) :
  Py.lower (a ++ b) = (Py.lower a ++ Py.lower b)%string.
Proof.
  induction a as [|c a IH]; [done|].
  change (Py.lower (String c a ++ b))
    with (String (Py.lower_char c) (Py.lower (a ++ b))).
  by rewrite IH.
Qed.

Lemma string_of_list_ascii_app (a b : list ascii) :
  string_of_list_ascii (a ++ b)
  = (string_of_list_ascii a ++ string_of_list_ascii b)%string.
Proof. induction a as [|c a IH]; [done|]. cbn. by rewrite IH. Qed.

Lemma prefix_app (p q : string) : String.prefix p (p ++ q) = true.
Proof.
  induction p as [|c p IH]; [by destruct q|].
  change (String c p ++ q)%string with (String c (p ++ q)).
  cbn [String.prefix]. by destruct (Ascii.ascii_dec c c).
Qed.

Lemma endswith_app (s suffix : string) :
  Py.endswith (s ++ suffix) suffix = true.
Proof.
  unfold Py.endswith, Py.rev_string.
  rewrite list_ascii_of_string_app, rev_app_distr, string_of_list_ascii_app.
  apply prefix_app.
Qed.

(** X17: a URL that ends in one of the five picture extensions, written
    in any mix of upper and lower case, is a picture URL, whatever comes
    before the extension. *)
Theorem image_extension_any_case (s ext : string) :
  Py.lower ext ∈ [".jpg"; ".jpeg"; ".png"; ".gif"; ".webp"] →
  is_valid_image_url (s ++ ext) = true.
Proof.
  intros Hext. unfold is_valid_image_url, Py.any.
  apply existsb_exists. exists (Py.lower ext). split.
  - by apply list_elem_of_In.
  - rewrite lower_app. apply endswith_app.
Qed.

Lemma image_extension_any_case_witness :
  is_valid_image_url ("http://seed.test/IMG" ++ ".JpG") = true.
Proof.
  apply image_extension_any_case. vm_compute.
  apply list_elem_of_here.
Defined.

(** ** Links of the stripped document *)

Lemma anchors_of_decomposed_node names n a' :
  a' ∈ flat_map (Bs4.find_all_node ["a"]) (Bs4.decompose_node names n) →
  ∃ a, a ∈ Bs4.find_all_node ["a"] n
       ∧ Bs4.get "href" a = Bs4.get "href" a'.
Proof.
  revert a'.
  induction n as [s|tag attrs children IH] using Node_nested_ind;
    intros a'; [by intros ?%elem_of_nil|].
  cbn [Bs4.decompose_node].
  destruct (Bs4.tag_in tag names); [by intros ?%elem_of_nil|].
  cbn [flat_map Bs4.find_all_node]. rewrite app_nil_r.
  intros [Hhead|Hrest]%elem_of_app.
  - destruct (Bs4.tag_in tag ["a"]); [|by apply elem_of_nil in Hhead].
    apply list_elem_of_singleton in Hhead as ->.
    eexists. split; [apply elem_of_app; left; apply list_elem_of_here|done].
  - rewrite flat_map_flat_map in Hrest.
    apply list_elem_of_In, in_flat_map in Hrest
      as (child & Hchild%list_elem_of_In & Hin%list_elem_of_In).
    rewrite Forall_forall in IH.
    destruct (IH child Hchild a' Hin) as (a & Ha & Hhref).
    exists a. split; [|done]. apply elem_of_app. right.
    apply list_elem_of_In, in_flat_map. exists child.
    split; by apply list_elem_of_In.
Qed.

Lemma anchors_of_stripped soup a' :
  a' ∈ Bs4.find_all ["a"] (extract_text soup).2 →
  ∃ a, a ∈ Bs4.find_all ["a"] soup ∧ Bs4.get "href" a = Bs4.get "href" a'.
Proof.
  intros Hin.
  unfold extract_text, Bs4.find_all, Bs4.decompose_all in Hin.
  cbn [snd] in Hin. rewrite flat_map_flat_map in Hin.
  apply list_elem_of_In, in_flat_map in Hin
    as (n & Hn%list_elem_of_In & Hin%list_elem_of_In).
  destruct (anchors_of_decomposed_node _ _ _ Hin) as (a & Ha & Heq).
  exists a. split; [|done].
  apply list_elem_of_In, in_flat_map. exists n. split; by apply list_elem_of_In.
Qed.

(** X19: when [extract_links] returns on a page as it was parsed, which is
    what the rescan of the loop reads, it returns as well on the page that
    [extract_text] has stripped, which is what the fetching task reads,
    and the links of the stripped page are among those of the page as
    parsed: stripping can remove links (those inside [nav], [header],
    [footer], [script] or [style]) and never adds one. *)
Theorem stripped_links_are_page_links (w : World) (soup : Soup)
    (base_url : string) (c : Crawler) (page_links : list string) :
  extract_links w soup base_url c = Some page_links →
  ∃ links,
    extract_links w (extract_text soup).2 base_url c = Some links
    ∧ ∀ link, link ∈ links → link ∈ page_links.
Proof.
  unfold extract_links. intros Hpage.
  destruct (links_of w (Bs4.find_all ["a"] (extract_text soup).2) base_url
              (visited c)) as [links|] eqn:Hstripped.
  - exists links. split; [done|]. intros link Hin.
    apply (links_of_spec w _ _ _ _ link Hstripped) in Hin
      as (a' & href & Ha' & Hhref & Hrest).
    destruct (anchors_of_stripped soup a' Ha') as (a & Ha & Heq).
    apply (links_of_spec w _ _ _ _ link Hpage).
    exists a, href. split; [done|]. by rewrite Heq.
  - apply links_of_raises in Hstripped as (a' & href & Ha' & Hhref & Hrest).
    destruct (anchors_of_stripped soup a' Ha') as (a & Ha & Heq).
    assert (links_of w (Bs4.find_all ["a"] soup) base_url (visited c) = None)
      as Hnone.
    { apply links_of_raises. exists a, href. split; [done|]. by rewrite Heq. }
    congruence.
Qed.

Lemma stripped_links_are_page_links_witness :
  ∃ links,
    extract_links Scenario.world (extract_text Scenario.seed_soup).2
      Scenario.seed (Scenario.new_crawler 3 8000 4000) = Some links
    ∧ ∀ link, link ∈ links → link ∈ [Scenario.leaf].
Proof.
  apply stripped_links_are_page_links. vm_compute. reflexivity.
Defined.

(** ** References that urllib refuses *)

Lemma process_fetched_raises (w : World) url domain content depth c a href :
  depth < max_depth c →
  a ∈ Bs4.find_all ["a"] (extract_text (parse_html w content)).2 →
  Bs4.get "href" a = Some href → href ≠ "" →
  urljoin w url href = None →
  ∃ c', process_fetched w url domain content depth c = Some c'
        ∧ tasks c' = tasks c
        ∧ last (log c') = Some (LogCrawlError url).
Proof.
  intros Hdepth Ha Hhref Hne Hjoin. unfold process_fetched.
  destruct (extract_text (parse_html w content)) as [text soup].
  cbn [snd] in Ha.
  rewrite emit_text_eq. cbn [mbind option_bind]. unfold process_images.
  match goal with
  | |- context [process_images_from w ?imgs url depth ?c1] =>
      destruct (process_images_from_step w imgs url depth c1)
        as (r & -> & Hs);
      assert (max_depth c1 = max_depth c ∧ tasks c1 = tasks c) as [Hmd Ht]
        by by destruct (_ && _ && _)
  end.
  cbn [mbind option_bind].
  pose proof (is_max_depth _ _ _ Hs) as Hmd2.
  pose proof (is_tasks _ _ _ Hs) as Ht2.
  rewrite Hmd in Hmd2. rewrite Ht in Ht2.
  destruct r as [c2|c2]; cbn [after] in *.
  - destruct (Z.ltb_spec depth (max_depth c2)); [|lia].
    assert (extract_links w soup url c2 = None) as ->.
    { apply links_of_raises. by exists a, href. }
    eexists. split; [done|]. cbn. split; [done|]. by rewrite last_snoc.
  - eexists. split; [done|]. cbn. split; [done|]. by rewrite last_snoc.
Qed.

(** X20: one reference that urllib refuses costs a fetched page all its
    links.  When the page a task downloads still has, once [extract_text]
    has stripped it, an anchor whose non-empty [href] makes [urljoin]
    raise, and the depth is below the limit, the task returns having
    scheduled nothing: the page is cached, the last line of the log is the
    error of line 239 for the task's URL, and the tasks are those from
    before. *)
Theorem malformed_href_drops_every_link (w : World) (url : string)
    (depth : Z) (c : Crawler) (content : string) (a : Node) (href : string) :
  fetched_content w url depth c = Some content →
  depth < max_depth c →
  a ∈ Bs4.find_all ["a"] (extract_text (parse_html w content)).2 →
  Bs4.get "href" a = Some href →
  href ≠ "" →
  urljoin w url href = None →
  ∃ c', crawl_url_dfs w url depth c = Some c'
        ∧ tasks c' = tasks c
        ∧ last (log c') = Some (LogCrawlError url)
        ∧ pages c' !! url = Some (content, clock c).
Proof.
  intros Hfetched Hdepth Ha Hhref Hne Hjoin.
  destruct (crawl_url_dfs_step w url depth c) as (c' & Hc' & _).
  exists c'. split; [done|].
  pose proof (ce_pages _ _ _ _ _ (crawl_url_dfs_effects w _ _ _ _ Hc'))
    as Hpages.
  rewrite Hfetched in Hpages.
  assert (tasks c' = tasks c ∧ last (log c') = Some (LogCrawlError url))
    as [? ?]; [|by rewrite Hpages, lookup_insert_eq].
  revert Hc'. rewrite crawl_url_dfs_unfold, guard_claims.
  unfold fetched_content in Hfetched.
  destruct (reaches_fetch url depth c) eqn:Hreach; [|done].
  rewrite reaches_fetch_claims in Hreach.
  apply andb_true_iff in Hreach as [-> ->%negb_true_iff].
  cbn [negb]. cbn zeta. unfold fetch_page.
  unfold html_content in Hfetched.
  destruct (http_get w url) as [| |status content_type content0];
    [done..|].
  destruct (status =? 200); [|done]. cbn [negb andb] in *.
  destruct (Py.contains _ _); [|done]. cbn [negb].
  injection Hfetched as ->.
  match goal with
  | |- process_fetched w url ?d content depth ?c1 = _ → _ =>
      destruct (process_fetched_raises w url d content depth c1 a href)
        as (c'' & -> & Ht & Hl);
      [by (unfold get_cached_page; repeat case_match)|done..|];
      assert (tasks c1 = tasks c) as Ht1
        by (unfold get_cached_page; by repeat case_match)
  end.
  intros [= <-]. split; congruence.
Qed.

(** The page with the two anchors: the leaf is not scheduled. *)
Lemma malformed_href_drops_every_link_witness :
  ∃ c', crawl_url_dfs Scenario.world Scenario.bad 0
          (Scenario.new_crawler 3 8000 4000) = Some c'
        ∧ tasks c' = []
        ∧ last (log c') = Some (LogCrawlError Scenario.bad).
Proof.
  destruct (malformed_href_drops_every_link Scenario.world Scenario.bad 0
              (Scenario.new_crawler 3 8000 4000) Scenario.bad_html
              (Elem "a" [("href", "http://[::1")] [Text "local"])
              "http://[::1") as (c' & Hc' & Ht & Hl & _).
  - vm_compute. reflexivity.
  - vm_compute. reflexivity.
  - cbn. apply list_elem_of_here.
  - reflexivity.
  - discriminate.
  - vm_compute. reflexivity.
  - by exists c'.
Defined.

Lemma collect_unvisited_raises (w : World) urls unvisited_urls c visited_url
    content last_crawled a href :
  visited_url ∈ urls →
  pages c !! visited_url = Some (content, last_crawled) →
  clock c - last_crawled < hours_24 →
  content ≠ "" →
  a ∈ Bs4.find_all ["a"] (parse_html w content) →
  Bs4.get "href" a = Some href → href ≠ "" →
  urljoin w visited_url href = None →
  (collect_unvisited w urls unvisited_urls c).1 = None.
Proof.
  intros Hin Hrow Hfresh Hcontent Ha Hhref Hne Hjoin.
  revert unvisited_urls c Hin Hrow Hfresh.
  induction urls as [|u rest IH]; intros acc c Hin Hrow Hfresh;
    [by apply elem_of_nil in Hin|].
  cbn [collect_unvisited].
  destruct (decide (u = visited_url)) as [->|Hneq].
  - unfold get_cached_page. rewrite Hrow.
    destruct (Z.ltb_spec (clock c - last_crawled) hours_24); [|lia].
    apply truthy_true in Hcontent. rewrite Hcontent.
    assert (extract_links w (parse_html w content) visited_url
              (bump_cached_hits c) = None) as ->; [|done].
    apply links_of_raises. by exists a, href.
  - apply elem_of_cons in Hin as [Heq|Hin]; [congruence|].
    destruct (get_cached_page_metrics u c) as (m & Hm).
    destruct (get_cached_page u c) as [cached c1].
    cbn [snd] in Hm. subst c1.
    assert (∀ acc', (collect_unvisited w rest acc' (with_metrics m c)).1
                    = None) as Hrest by (intros acc'; by apply IH).
    destruct cached as [ct|]; [|apply Hrest].
    destruct (Py.truthy ct); [|apply Hrest].
    destruct (extract_links _ _ _ _); [apply Hrest|done].
Qed.

(** X21: a reference that urllib refuses, in a page of the cache, ends the
    run.  With one task in flight or more, when the oldest task has
    returned, the crawler is within its cap, and some visited URL has a
    fresh, non-empty page in the cache with an anchor whose non-empty
    [href] makes [urljoin] raise, the rescan that follows raises and
    [run_crawler] returns at once, whatever tasks are left: the last line
    of its log is the error of line 327. *)
Theorem malformed_cached_href_ends_run (w : World) (fuel : nat)
    (c c1 : Crawler) (t : Task) (rest : list Task) (visited_url : string)
    (content : string) (last_crawled : Z) (a : Node) (href : string) :
  tasks c = t :: rest →
  is_running c = true →
  crawl_url_dfs w (task_url t) (task_depth t) c = Some c1 →
  len_tasks c1 ≤ max_concurrent c1 →
  visited_url ∈ visited c1 →
  pages c1 !! visited_url = Some (content, last_crawled) →
  clock c1 - last_crawled < hours_24 →
  content ≠ "" →
  a ∈ Bs4.find_all ["a"] (parse_html w content) →
  Bs4.get "href" a = Some href →
  href ≠ "" →
  urljoin w visited_url href = None →
  ∃ c', run_loop w (S fuel) c = Some c'
        ∧ last (log c') = Some LogCrawlerError.
Proof.
  intros Htasks Hrun Hc1 Hcap Hvisited Hrow Hfresh Hcontent Ha Hhref Hne Hjoin.
  cbn [run_loop]. rewrite Htasks, Hrun, Hc1. cbn [negb mbind option_bind].
  destruct (crawl_url_dfs_step w (task_url t) (task_depth t) c)
    as (c1' & Hc1' & Hstep).
  assert (c1' = c1) as -> by congruence.
  destruct (ts_tasks _ _ _ _ Hstep) as (new & Hnew & _).
  rewrite Htasks in Hnew.
  unfold rescan_ended.
  assert ((len_tasks (with_tasks (tail (tasks c1)) c1)
           <? max_concurrent (with_tasks (tail (tasks c1)) c1))
          && is_running (with_tasks (tail (tasks c1)) c1) = true) as ->.
  { apply andb_true_iff. split.
    - apply Z.ltb_lt. unfold len_tasks in *. cbn. rewrite Hnew in *.
      cbn in *. lia.
    - cbn. by rewrite (ts_is_running _ _ _ _ Hstep). }
  pose proof (collect_unvisited_raises w
                (elements (visited (with_tasks (tail (tasks c1)) c1))) []
                (with_tasks (tail (tasks c1)) c1) visited_url content
                last_crawled a href) as Hraise.
  destruct (collect_unvisited_metrics w
              (elements (visited (with_tasks (tail (tasks c1)) c1))) []
              (with_tasks (tail (tasks c1)) c1)) as (m & Hm).
  destruct (collect_unvisited w _ [] (with_tasks (tail (tasks c1)) c1))
    as [unvisited_urls c2].
  cbn [fst snd] in *. subst c2.
  rewrite Hraise; [|by apply elem_of_elements|done..].
  eexists. split; [done|]. cbn. by rewrite last_snoc.
Qed.

(** The run from the page whose navigation bar holds the bad reference:
    the task reads the stripped page and schedules the leaf, the rescan
    reads the page as parsed, and the run is over. *)
Lemma malformed_cached_href_ends_run_witness :
  ∃ c', run_crawler Scenario.world 5 [Scenario.broken]
          (Scenario.new_crawler 3 8000 4000) = Some c'
        ∧ last (log c') = Some LogCrawlerError.
Proof.
  pose (c := create_initial_tasks [Scenario.broken]
               (Scenario.new_crawler 3 8000 4000)).
  pose (c1 := default c (crawl_url_dfs Scenario.world Scenario.broken 0 c)).
  destruct (malformed_cached_href_ends_run Scenario.world 4 c c1
              {| task_url := Scenario.broken; task_depth := 0 |} []
              Scenario.broken Scenario.broken_html 0
              (Elem "a" [("href", "http://[::1")] [Text "local"])
              "http://[::1") as (c' & Hc' & Hl).
  - reflexivity.
  - reflexivity.
  - vm_compute. reflexivity.
  - vm_compute. discriminate.
  - apply (bool_decide_unpack _). vm_compute. exact I.
  - vm_compute. reflexivity.
  - vm_compute. reflexivity.
  - discriminate.
  - cbn. apply list_elem_of_here.
  - reflexivity.
  - discriminate.
  - vm_compute. reflexivity.
  - exists c'. split; [exact Hc'|done].
Defined.
